(** * A ledger of bank accounts: the [BankAccount] class and the registry of
      [BankingApp], embedded from PassangDema_02240124_A3_PA.py.

    Python objects live in a store indexed by object identity; a method call
    is a computation over that store that either returns or raises, and in
    both cases hands back the store as it stands at that point, so that a
    mutation performed before a [raise] stays visible.

    Amounts are Python [int]s, as in the repository's unit tests: unbounded
    integers with exact arithmetic, modelled by [Z].  Binary floating point
    amounts (what the dialogs of the GUI deliver) round; the methods of the
    account are embedded a second time on them, in [Binary64], to show where
    the exact statements stop to hold. *)

From stdpp Require Import base option gmap strings pretty list.
From Stdlib Require Import ZArith Lia.
From Corelib Require Import PrimFloat.

Local Open Scope string_scope.
Local Open Scope Z_scope.

(** ** Exceptions *)

(** The two exception classes of the module, each carrying its message. *)
Inductive exn : Type :=
| InvalidAmountError (msg : string)
| InsufficientFundsError (msg : string).

(** The class of an exception, forgetting the message. *)
Inductive exn_kind : Type := InvalidAmount | InsufficientFunds.

Definition kind_of (e : exn) : exn_kind :=
  match e with
  | InvalidAmountError _ => InvalidAmount
  | InsufficientFundsError _ => InsufficientFunds
  end.

(** ** Objects and the store *)

(** The attributes set by [BankAccount.__init__]. *)
Record BankAccount : Type := mkBankAccount {
  acc_no : string;
  name : string;
  password : string;
  acc_type : string;
  balance : Z;
  transactions : list string
}.

Definition set_balance (b : Z) (a : BankAccount) : BankAccount :=
  mkBankAccount (acc_no a) (name a) (password a) (acc_type a) b (transactions a).

Definition set_transactions (ts : list string) (a : BankAccount) : BankAccount :=
  mkBankAccount (acc_no a) (name a) (password a) (acc_type a) (balance a) ts.

(** Object identity.  [BankAccount] defines no [__eq__], so Python's [==]
    between two accounts is identity, here equality of locations. *)
Abbreviation loc := positive (only parsing).

Abbreviation heap := (gmap positive BankAccount) (only parsing).

(** ** Computations over the store *)

(** [Stuck] is the access to a location that holds no object; Python has no
    dangling references, so no run of the program gets there. *)
Inductive outcome (A : Type) : Type :=
| Returned (a : A) (h : heap)
| Raised (e : exn) (h : heap)
| Stuck.

Arguments Returned {A} a h.
Arguments Raised {A} e h.
Arguments Stuck {A}.

Definition M (A : Type) : Type := heap → outcome A.

#[global] Instance M_ret : MRet M := λ A a h, Returned a h.

#[global] Instance M_bind : MBind M := λ A B f m h,
  match m h with
  | Returned a h' => f a h'
  | Raised e h' => Raised e h'
  | Stuck => Stuck
  end.

Definition raise {A} (e : exn) : M A := λ h, Raised e h.

(** [obj.attr] *)
Definition getattr {X} (attr : BankAccount → X) (l : loc) : M X := λ h,
  match h !! l with
  | Some a => Returned (attr a) h
  | None => Stuck
  end.

(** [obj.attr = v], through the setter [upd] of that attribute *)
Definition setattr (upd : BankAccount → BankAccount) (l : loc) : M unit := λ h,
  match h !! l with
  | Some a => Returned tt (<[l := upd a]> h)
  | None => Stuck
  end.

(** [obj.balance += d] *)
Definition add_balance (l : loc) (d : Z) : M unit :=
  b ← getattr balance l; setattr (set_balance (b + d)) l.

(** [obj.balance -= d] *)
Definition sub_balance (l : loc) (d : Z) : M unit :=
  b ← getattr balance l; setattr (set_balance (b - d)) l.

(** [obj.transactions.append(s)] *)
Definition append_transaction (l : loc) (s : string) : M unit :=
  ts ← getattr transactions l; setattr (set_transactions (ts ++ [s])) l.

(** [f"{amount}"] for an [int]: its decimal numeral. *)
Definition fmt (amount : Z) : string := pretty amount.

(** ** The methods of [BankAccount] *)

(** [BankAccount(acc_no, name, password, acc_type, balance)]: a new object,
    with an empty transaction log. *)
Definition BankAccount_init (acc_no name password acc_type : string)
    (balance : Z) : M loc := λ h,
  let l := fresh (dom h) in
  Returned l (<[l := mkBankAccount acc_no name password acc_type balance []]> h).

Definition deposit (self : loc) (amount : Z) : M unit :=
  if bool_decide (amount ≤ 0) then
    raise (InvalidAmountError "Amount must be positive")
  else
    add_balance self amount;;
    append_transaction self ("Deposited Nu." +:+ fmt amount).

Definition withdraw (self : loc) (amount : Z) : M unit :=
  if bool_decide (amount ≤ 0) then
    raise (InvalidAmountError "Amount must be positive")
  else
    b ← getattr balance self;
    if bool_decide (amount > b) then
      raise (InsufficientFundsError "Not enough balance")
    else
      sub_balance self amount;;
      append_transaction self ("Withdrew Nu." +:+ fmt amount).

Definition transfer (self : loc) (amount : Z) (target : loc) : M unit :=
  if bool_decide (amount ≤ 0) then
    raise (InvalidAmountError "Amount must be positive")
  else
    b ← getattr balance self;
    if bool_decide (amount > b) then
      raise (InsufficientFundsError "Not enough balance")
    else if bool_decide (target = self) then
      raise (InvalidAmountError "Cannot transfer to same account")
    else
      sub_balance self amount;;
      add_balance target amount;;
      tname ← getattr name target;
      tno ← getattr acc_no target;
      append_transaction self
        ("Sent Nu." +:+ fmt amount +:+ " to " +:+ tname +:+ " (Acc: " +:+ tno +:+ ")");;
      sname ← getattr name self;
      sno ← getattr acc_no self;
      append_transaction target
        ("Received Nu." +:+ fmt amount +:+ " from " +:+ sname +:+ " (Acc: " +:+ sno +:+ ")").

Definition mobile_topup (self : loc) (amount : Z) (number : string) : M unit :=
  if bool_decide (amount ≤ 0) then
    raise (InvalidAmountError "Amount must be positive")
  else
    b ← getattr balance self;
    if bool_decide (amount > b) then
      raise (InsufficientFundsError "Not enough balance")
    else
      sub_balance self amount;;
      append_transaction self
        ("Mobile top-up Nu." +:+ fmt amount +:+ " to " +:+ number).

(** [get_transactions] returns the log. *)
Definition get_transactions (self : loc) : M (list string) :=
  getattr transactions self.

(** ** Sequences of calls *)

Inductive call : Type :=
| Deposit (self : loc) (amount : Z)
| Withdraw (self : loc) (amount : Z)
| Transfer (self : loc) (amount : Z) (target : loc)
| MobileTopup (self : loc) (amount : Z) (number : string).

Definition run_call (c : call) : M unit :=
  match c with
  | Deposit l x => deposit l x
  | Withdraw l x => withdraw l x
  | Transfer l x t => transfer l x t
  | MobileTopup l x n => mobile_topup l x n
  end.

(** The calls one after the other; the first exception ends the run. *)
Fixpoint run_calls (cs : list call) : M unit :=
  match cs with
  | [] => mret tt
  | c :: cs' => run_call c;; run_calls cs'
  end.

(** ** The registry and the session of [BankingApp]

    The dialogs are the environment: what [simpledialog.askstring] and
    [simpledialog.askfloat] return ([None] when the dialog is cancelled) is an
    argument of the handler, and the message boxes a handler opens are its
    output.  The widgets it redraws carry no state of the ledger and are left
    out. *)

Module BankingApp.

(** [self.accounts] and [self.current] *)
Record t : Type := mk {
  accounts : gmap string loc;
  current : option loc
}.

Inductive messagebox : Type :=
| showerror (title message : string)
| showinfo (title message : string).

(** What a handler leaves behind: the application object, the store and the
    message boxes shown, or [None] where it would touch a location that
    holds no object. *)
Abbreviation result := (option (t * heap * list messagebox)) (only parsing).

(** [BankingApp.__init__] *)
Definition init : t := mk ∅ None.

Definition newline : string := String (Ascii.ascii_of_nat 10) EmptyString.

(** [str.lower] and [str.capitalize] on ASCII letters. *)
Definition lower_char (c : Ascii.ascii) : Ascii.ascii :=
  let n := Ascii.nat_of_ascii c in
  if bool_decide (65 ≤ n ≤ 90)%nat then Ascii.ascii_of_nat (n + 32) else c.

Definition upper_char (c : Ascii.ascii) : Ascii.ascii :=
  let n := Ascii.nat_of_ascii c in
  if bool_decide (97 ≤ n ≤ 122)%nat then Ascii.ascii_of_nat (n - 32) else c.

Fixpoint lower (s : string) : string :=
  match s with
  | EmptyString => EmptyString
  | String c r => String (lower_char c) (lower r)
  end.

Definition capitalize (s : string) : string :=
  match s with
  | EmptyString => EmptyString
  | String c r => String (upper_char c) (lower r)
  end.

Definition sign_up (acc_no name acc_type password : option string)
    (bal : option Z) (self : t) (h : heap) : result :=
  match acc_no with
  | None | Some EmptyString => Some (self, h, [])
  | Some acc_no =>
    if bool_decide (is_Some (accounts self !! acc_no)) then
      Some (self, h, [showerror "Error" "Account number already exists"])
    else
      match name with
      | None | Some EmptyString => Some (self, h, [])
      | Some name =>
        let invalid :=
          showerror "Error"
            "Invalid account type. Please enter Personal or Business." in
        match acc_type with
        | None | Some EmptyString => Some (self, h, [invalid])
        | Some acc_type =>
          if bool_decide (lower acc_type ∉ ["personal"; "business"]) then
            Some (self, h, [invalid])
          else
            match password with
            | None | Some EmptyString => Some (self, h, [])
            | Some password =>
              match bal with
              | None => Some (self, h, [])
              | Some bal =>
                match BankAccount_init acc_no name password
                        (capitalize acc_type) bal h with
                | Returned l h' =>
                  Some (mk (<[acc_no := l]> (accounts self)) (current self),
                        h',
                        [showinfo "Success"
                           (capitalize acc_type +:+ " account created for "
                            +:+ name +:+ newline +:+ "Acc No: " +:+ acc_no)])
                | _ => None
                end
              end
            end
        end
      end
  end.

Definition login (acc_no pw : option string) (self : t) (h : heap)
    : result :=
  if bool_decide (accounts self = ∅) then
    Some (self, h, [showerror "Error" "No accounts available"])
  else
    let not_found := showerror "Error" "Account not found" in
    match acc_no with
    | None | Some EmptyString => Some (self, h, [not_found])
    | Some acc_no =>
      match accounts self !! acc_no with
      | None => Some (self, h, [not_found])
      | Some l =>
        match h !! l with
        | None => None
        | Some a =>
          if bool_decide (pw ≠ Some (password a)) then
            Some (self, h, [showerror "Error" "Incorrect password"])
          else
            Some (mk (accounts self) (Some l), h,
                  [showinfo "Success" ("Welcome " +:+ name a +:+ "!")])
        end
      end
    end.

Definition logout (self : t) (h : heap) : result :=
  Some (mk (accounts self) None, h, []).

(** The message box that reports a credential mismatch. *)
Definition AuthenticationFailed : messagebox :=
  showerror "Error" "Incorrect password".

(** What the running application can get to.  The four transaction
    handlers (deposit, withdraw, fund transfer, mobile top-up) change the
    ledger only through one method call on a registered object, inside
    [try]/[except]; here any method call on any object of the store is a
    step, whether it returns or raises. *)
Inductive reachable : t → heap → Prop :=
| reach_init : reachable init ∅
| reach_sign_up self h a n ty p b self' h' out :
    reachable self h →
    sign_up a n ty p b self h = Some (self', h', out) →
    reachable self' h'
| reach_login self h a p self' h' out :
    reachable self h →
    login a p self h = Some (self', h', out) →
    reachable self' h'
| reach_logout self h self' h' out :
    reachable self h →
    logout self h = Some (self', h', out) →
    reachable self' h'
| reach_returned self h c h' :
    reachable self h →
    run_call c h = Returned tt h' →
    reachable self h'
| reach_raised self h c e h' :
    reachable self h →
    run_call c h = Raised e h' →
    reachable self h'.

(** Every registered number is non-empty and names an object of the store
    that carries this number. *)
Definition registry_ok (self : t) (h : heap) : Prop :=
  ∀ n l, accounts self !! n = Some l →
    n ≠ "" ∧ ∃ a, h !! l = Some a ∧ acc_no a = n.

End BankingApp.

(** ** What a successful call leaves in an object *)

(** The object after [x] was added to its balance and [s] was logged. *)
Definition credited (x : Z) (s : string) (a : BankAccount) : BankAccount :=
  mkBankAccount (acc_no a) (name a) (password a) (acc_type a)
    (balance a + x) (transactions a ++ [s]).

(** The object after [x] was taken from its balance and [s] was logged. *)
Definition debited (x : Z) (s : string) (a : BankAccount) : BankAccount :=
  mkBankAccount (acc_no a) (name a) (password a) (acc_type a)
    (balance a - x) (transactions a ++ [s]).

Definition sent_record (x : Z) (target : BankAccount) : string :=
  "Sent Nu." +:+ fmt x +:+ " to " +:+ name target
    +:+ " (Acc: " +:+ acc_no target +:+ ")".

Definition received_record (x : Z) (self : BankAccount) : string :=
  "Received Nu." +:+ fmt x +:+ " from " +:+ name self
    +:+ " (Acc: " +:+ acc_no self +:+ ")".

(** The attributes no method assigns. *)
Definition same_identity (a a' : BankAccount) : Prop :=
  acc_no a' = acc_no a ∧ name a' = name a ∧
  password a' = password a ∧ acc_type a' = acc_type a.

(** The store a call ends with, returning or raising. *)
Definition final_store {A} (o : outcome A) : option heap :=
  match o with
  | Returned _ h' => Some h'
  | Raised _ h' => Some h'
  | Stuck => None
  end.

(** ** Failure *)

(** The reasons for which a call is turned down: an amount that is not
    positive, an amount above the balance, a transfer to oneself. *)
Definition rejected (c : call) (h : heap) : Prop :=
  match c with
  | Deposit l x => x ≤ 0
  | Withdraw l x | MobileTopup l x _ =>
    x ≤ 0 ∨ ∃ a, h !! l = Some a ∧ x > balance a
  | Transfer l x t =>
    x ≤ 0 ∨ ∃ a, h !! l = Some a ∧ (x > balance a ∨ t = l)
  end.

(** ** The log *)

(** The number of records in all the logs of the store. *)
Definition total_records (h : heap) : nat :=
  map_fold (λ _ a n, length (transactions a) + n)%nat 0%nat h.

(** The log of the object at [l] in [h'] is its log in [h] with exactly one
    record added at the end. *)
Definition one_appended (l : loc) (h h' : heap) : Prop :=
  ∃ a a' s, h !! l = Some a ∧ h' !! l = Some a' ∧
    transactions a' = (transactions a ++ [s])%list.

(** ** Two accounts: Alice with 1000 on 001, Bob with 500 on 002 *)

Definition alice : BankAccount :=
  mkBankAccount "001" "Alice" "p1" "Personal" 1000 [].

Definition bob : BankAccount :=
  mkBankAccount "002" "Bob" "p2" "Business" 500 [].

(** [acc001 = BankAccount("001", ...); acc002 = BankAccount("002", ...)] *)
Definition two_accounts : M (loc * loc) :=
  acc001 ← BankAccount_init "001" "Alice" "p1" "Personal" 1000;
  acc002 ← BankAccount_init "002" "Bob" "p2" "Business" 500;
  mret (acc001, acc002).

Definition ledger : heap := <[2%positive := bob]> (<[1%positive := alice]> ∅).

Definition namesakes : heap :=
  <[2%positive := mkBankAccount "001" "Bob" "p2" "Business" 500 []]>
    (<[1%positive := alice]> ∅).

Definition busy_day : list call :=
  [Deposit 1 50; Transfer 1 200 2; Withdraw 2 700; MobileTopup 1 850 "17123456"].

Definition ledger_after_busy_day : heap :=
  default ∅ (final_store (run_calls busy_day ledger)).

Definition ledger_after_transfer : heap :=
  default ∅ (final_store (transfer 1 200 2 ledger)).

(** [acc001.transfer(200, acc002)] on the two fresh accounts, then the
    balances and the logs of both. *)
Definition transfer_scenario : M (Z * Z * list string * list string) :=
  accs ← two_accounts;
  transfer accs.1 200 accs.2;;
  b1 ← getattr balance accs.1;
  b2 ← getattr balance accs.2;
  t1 ← get_transactions accs.1;
  t2 ← get_transactions accs.2;
  mret (b1, b2, t1, t2).

(** The application after Alice signed up. *)
Definition registered_app : BankingApp.t := BankingApp.mk {["001" := 1%positive]} None.

Definition registered_store : heap := {[1%positive := alice]}.

(** ** What a sequence of calls adds up to *)

(** The money in the store: the sum of all balances. *)
Definition total_balance (h : heap) : Z :=
  map_fold (λ _ a s, balance a + s) 0 h.

(** What a call brings into the store or takes out of it. *)
Definition net (c : call) : Z :=
  match c with
  | Deposit _ x => x
  | Withdraw _ x | MobileTopup _ x _ => - x
  | Transfer _ _ _ => 0
  end.

(** What a call adds to the balance of the object at [l]. *)
Definition delta (l : loc) (c : call) : Z :=
  match c with
  | Deposit s x => if bool_decide (s = l) then x else 0
  | Withdraw s x | MobileTopup s x _ => if bool_decide (s = l) then - x else 0
  | Transfer s x t =>
    if bool_decide (s = l) then - x else if bool_decide (t = l) then x else 0
  end.

(** The records a call writes into the log of the object at [l]; the names
    and numbers in the records of a transfer are read from [h]. *)
Definition entries (h : heap) (l : loc) (c : call) : list string :=
  match c with
  | Deposit s x =>
    if bool_decide (s = l) then ["Deposited Nu." +:+ fmt x] else []
  | Withdraw s x =>
    if bool_decide (s = l) then ["Withdrew Nu." +:+ fmt x] else []
  | MobileTopup s x number =>
    if bool_decide (s = l)
    then ["Mobile top-up Nu." +:+ fmt x +:+ " to " +:+ number] else []
  | Transfer s x t =>
    if bool_decide (s = l) then
      from_option (λ b, [sent_record x b]) [] (h !! t)
    else if bool_decide (t = l) then
      from_option (λ a, [received_record x a]) [] (h !! s)
    else []
  end.

(** The name and the number of an object, which the records quote. *)
Definition quoted (a : BankAccount) : string * string := (name a, acc_no a).

(** The objects a call works on exist. *)
Definition allocated (c : call) (h : heap) : Prop :=
  match c with
  | Deposit l _ | Withdraw l _ | MobileTopup l _ _ => is_Some (h !! l)
  | Transfer l _ t => is_Some (h !! l) ∧ is_Some (h !! t)
  end.

(** The caller of a call. *)
Definition caller (c : call) : loc :=
  match c with
  | Deposit l _ | Withdraw l _ | MobileTopup l _ _ | Transfer l _ _ => l
  end.

(** ** The buttons of the dashboard

    The four transaction handlers of [BankingApp].  Each asks for its
    answers, calls one method of the current account inside [try], and
    reports the outcome in a message box; [str(e)] of an exception is its
    message.  The redrawing of the balance label and of the transaction
    list by [update_display] reads the ledger and changes none of it. *)

(** [str(e)] *)
Definition exn_message (e : exn) : string :=
  match e with
  | InvalidAmountError msg | InsufficientFundsError msg => msg
  end.

Module Dashboard.
Import BankingApp.

(** What a handler leaves behind: the application object, the store and
    the message boxes; or an exception that no [except] caught, before
    anything was changed; or the access to a location that holds no
    object. *)
Inductive handled : Type :=
| Finished (self : t) (h : heap) (out : list messagebox)
| Escaped (message : string)
| Lost.

(** The methods of [BankAccount], under names the handlers do not hide. *)
Local Abbreviation account_deposit := deposit (only parsing).
Local Abbreviation account_withdraw := withdraw (only parsing).
Local Abbreviation account_transfer := transfer (only parsing).
Local Abbreviation account_mobile_topup := mobile_topup (only parsing).

(** [try: <call>; self.update_display(); messagebox.showinfo("Success", ...)]
    [except Exception as e: messagebox.showerror("Error", str(e))] *)
Definition try_call (self : t) (body : M unit) (success : string) (h : heap)
    : handled :=
  match body h with
  | Returned _ h' => Finished self h' [showinfo "Success" success]
  | Raised e h' => Finished self h' [showerror "Error" (exn_message e)]
  | Stuck => Lost
  end.

(** [self.current.<method>(...)] inside the [try]: with no current account
    the attribute lookup on [None] raises an [AttributeError], which the
    [except] reports. *)
Definition try_current (self : t) (method : string) (body : loc → M unit)
    (success : string) (h : heap) : handled :=
  match current self with
  | None =>
    Finished self h
      [showerror "Error"
         ("'NoneType' object has no attribute '" +:+ method +:+ "'")]
  | Some l => try_call self (body l) success h
  end.

Definition deposit (amt : option Z) (self : t) (h : heap) : handled :=
  match amt with
  | None | Some 0 => Finished self h []
  | Some amt =>
    try_current self "deposit" (λ l, account_deposit l amt)
      ("Deposited Nu." +:+ fmt amt) h
  end.

Definition withdraw (amt : option Z) (self : t) (h : heap) : handled :=
  match amt with
  | None | Some 0 => Finished self h []
  | Some amt =>
    try_current self "withdraw" (λ l, account_withdraw l amt)
      ("Withdrew Nu." +:+ fmt amt) h
  end.

Definition transfer (target_acc : option string) (amt : option Z) (self : t)
    (h : heap) : handled :=
  if bool_decide (size (accounts self) < 2)%nat then
    Finished self h [showerror "Error" "Need at least 2 accounts"]
  else
    let invalid := Finished self h [showerror "Error" "Invalid recipient"] in
    match target_acc with
    | None | Some EmptyString => invalid
    | Some target_acc =>
      match accounts self !! target_acc with
      | None => invalid
      | Some target =>
        match current self with
        | None => Escaped "'NoneType' object has no attribute 'acc_no'"
        | Some l =>
          match h !! l with
          | None => Lost
          | Some a =>
            if bool_decide (target_acc = acc_no a) then invalid
            else
              match amt with
              | None | Some 0 => Finished self h []
              | Some amt =>
                try_call self (account_transfer l amt target)
                  ("Transferred Nu." +:+ fmt amt +:+ " to " +:+ target_acc) h
              end
          end
        end
      end
    end.

Definition mobile_topup (number : option string) (amt : option Z) (self : t)
    (h : heap) : handled :=
  match number with
  | None | Some EmptyString => Finished self h []
  | Some number =>
    match amt with
    | None | Some 0 => Finished self h []
    | Some amt =>
      try_current self "mobile_topup" (λ l, account_mobile_topup l amt number)
        ("Topped up Nu." +:+ fmt amt +:+ " to " +:+ number) h
    end
  end.

End Dashboard.

(** ** A session at the window

    [main_menu] offers Login and Sign Up, [account_dashboard] offers the four
    transactions and Logout.  The window shows the dashboard from a login
    that went through until the logout, which is as long as [self.current]
    is set. *)

Inductive event : Type :=
| SignUp (acc_no name acc_type password : option string) (bal : option Z)
| Login (acc_no pw : option string)
| Logout
| ClickDeposit (amt : option Z)
| ClickWithdraw (amt : option Z)
| ClickTransfer (target_acc : option string) (amt : option Z)
| ClickTopUp (number : option string) (amt : option Z).

(** The button of the event is on the screen. *)
Definition offered (e : event) (self : BankingApp.t) : bool :=
  match e with
  | SignUp _ _ _ _ _ | Login _ _ => bool_decide (BankingApp.current self = None)
  | _ => bool_decide (is_Some (BankingApp.current self))
  end.

Definition finish (r : option (BankingApp.t * heap * list BankingApp.messagebox))
    : Dashboard.handled :=
  match r with
  | Some (self, h, out) => Dashboard.Finished self h out
  | None => Dashboard.Lost
  end.

Definition step (e : event) (self : BankingApp.t) (h : heap)
    : Dashboard.handled :=
  match e with
  | SignUp a n ty p b => finish (BankingApp.sign_up a n ty p b self h)
  | Login a p => finish (BankingApp.login a p self h)
  | Logout => finish (BankingApp.logout self h)
  | ClickDeposit amt => Dashboard.deposit amt self h
  | ClickWithdraw amt => Dashboard.withdraw amt self h
  | ClickTransfer target amt => Dashboard.transfer target amt self h
  | ClickTopUp number amt => Dashboard.mobile_topup number amt self h
  end.

(** The events one after the other, each on the screen that offers it; the
    message boxes pile up.  An exception that escapes a handler is reported
    by the toolkit and the window goes on as it was. *)
Fixpoint run (es : list event) (self : BankingApp.t) (h : heap)
    : option (BankingApp.t * heap * list BankingApp.messagebox) :=
  match es with
  | [] => Some (self, h, [])
  | e :: es' =>
    if offered e self then
      match step e self h with
      | Dashboard.Finished self' h' out =>
        match run es' self' h' with
        | Some (self'', h'', out') => Some (self'', h'', (out ++ out')%list)
        | None => None
        end
      | Dashboard.Escaped _ => run es' self h
      | Dashboard.Lost => None
      end
    else None
  end.

(** What the dialogs let through: [askfloat] with [minvalue=0] for the
    opening balance and with [minvalue=0.01] for an amount returns [None] or
    a number that is not below its minimum. *)
Definition askfloat_ok (e : event) : Prop :=
  match e with
  | SignUp _ _ _ _ (Some bal) => 0 ≤ bal
  | ClickDeposit (Some amt) | ClickWithdraw (Some amt)
  | ClickTransfer _ (Some amt) | ClickTopUp _ (Some amt) => 0 < amt
  | _ => True
  end.

(** The events of the four transaction buttons. *)
Definition is_click (e : event) : bool :=
  match e with
  | ClickDeposit _ | ClickWithdraw _ | ClickTransfer _ _ | ClickTopUp _ _ => true
  | _ => false
  end.

(** An afternoon at the window: two sign-ups, a login, a transfer, a
    withdrawal that is too large, a top-up and the logout. *)
Definition afternoon : list event :=
  [SignUp (Some "001") (Some "Alice") (Some "personal") (Some "p1") (Some 1000);
   SignUp (Some "002") (Some "Bob") (Some "Business") (Some "p2") (Some 500);
   Login (Some "001") (Some "p1");
   ClickTransfer (Some "002") (Some 200);
   ClickWithdraw (Some 5000);
   ClickTopUp (Some "17123456") (Some 100);
   Logout].

Definition evening : BankingApp.t * heap * list BankingApp.messagebox :=
  default (BankingApp.init, ∅, []) (run afternoon BankingApp.init ∅).

(** The application once Alice and Bob have signed up and Alice has
    logged in; the store is [ledger]. *)
Definition desk : BankingApp.t :=
  BankingApp.mk (<["002" := 2%positive]> {["001" := 1%positive]})
    (Some 1%positive).

(** The application once Alice has logged in. *)
Definition logged_in_app : BankingApp.t :=
  BankingApp.mk {["001" := 1%positive]} (Some 1%positive).

(** ** The same methods on binary64 amounts

    The class takes any Python number.  On [int]s its arithmetic is exact,
    and that is what the definitions above embed.  The windows of the
    application deliver [float]s, and the arithmetic then is that of
    binary64, rounding to nearest: the kernel's primitive floats.  The four
    methods are embedded here once more, line by line, with a [float]
    balance and [float] amounts: [amount <= 0] and [amount > self.balance]
    are the comparisons of floats (false on a NaN), [+=] and [-=] round.
    The numeral that [f"{amount}"] prints for a float is not computed: a
    record of the log keeps the amount between the text before and the text
    after it. *)

Module Binary64.

Set Warnings "-inexact-float".

(** [f"<before>{amount}<after>"] *)
Inductive record : Type :=
| Formatted (before : string) (amount : float) (after : string).

Record account : Type := mk_account {
  acc_no : string;
  name : string;
  password : string;
  acc_type : string;
  balance : float;
  transactions : list record
}.

Definition set_balance (b : float) (a : account) : account :=
  mk_account (acc_no a) (name a) (password a) (acc_type a) b (transactions a).

Definition set_transactions (ts : list record) (a : account) : account :=
  mk_account (acc_no a) (name a) (password a) (acc_type a) (balance a) ts.

Inductive outcome (A : Type) : Type :=
| Returned (a : A) (h : gmap positive account)
| Raised (e : exn) (h : gmap positive account)
| Stuck.

Arguments Returned {A} a h.
Arguments Raised {A} e h.
Arguments Stuck {A}.

Definition M (A : Type) : Type := gmap positive account → outcome A.

#[global] Instance M_ret : MRet M := λ A a h, Returned a h.

#[global] Instance M_bind : MBind M := λ A B f m h,
  match m h with
  | Returned a h' => f a h'
  | Raised e h' => Raised e h'
  | Stuck => Stuck
  end.

Definition raise {A} (e : exn) : M A := λ h, Raised e h.

Definition getattr {X} (attr : account → X) (l : positive) : M X := λ h,
  match h !! l with
  | Some a => Returned (attr a) h
  | None => Stuck
  end.

Definition setattr (upd : account → account) (l : positive) : M unit := λ h,
  match h !! l with
  | Some a => Returned tt (<[l := upd a]> h)
  | None => Stuck
  end.

(** [obj.balance += d], rounded *)
Definition add_balance (l : positive) (d : float) : M unit :=
  b ← getattr balance l; setattr (set_balance (PrimFloat.add b d)) l.

(** [obj.balance -= d], rounded *)
Definition sub_balance (l : positive) (d : float) : M unit :=
  b ← getattr balance l; setattr (set_balance (PrimFloat.sub b d)) l.

Definition append_transaction (l : positive) (r : record) : M unit :=
  ts ← getattr transactions l; setattr (set_transactions (ts ++ [r])) l.

Definition deposit (self : positive) (amount : float) : M unit :=
  if PrimFloat.leb amount 0%float then
    raise (InvalidAmountError "Amount must be positive")
  else
    add_balance self amount;;
    append_transaction self (Formatted "Deposited Nu." amount "").

Definition withdraw (self : positive) (amount : float) : M unit :=
  if PrimFloat.leb amount 0%float then
    raise (InvalidAmountError "Amount must be positive")
  else
    b ← getattr balance self;
    if PrimFloat.ltb b amount then
      raise (InsufficientFundsError "Not enough balance")
    else
      sub_balance self amount;;
      append_transaction self (Formatted "Withdrew Nu." amount "").

Definition transfer (self : positive) (amount : float) (target : positive)
    : M unit :=
  if PrimFloat.leb amount 0%float then
    raise (InvalidAmountError "Amount must be positive")
  else
    b ← getattr balance self;
    if PrimFloat.ltb b amount then
      raise (InsufficientFundsError "Not enough balance")
    else if bool_decide (target = self) then
      raise (InvalidAmountError "Cannot transfer to same account")
    else
      sub_balance self amount;;
      add_balance target amount;;
      tname ← getattr name target;
      tno ← getattr acc_no target;
      append_transaction self
        (Formatted "Sent Nu." amount
           (" to " +:+ tname +:+ " (Acc: " +:+ tno +:+ ")"));;
      sname ← getattr name self;
      sno ← getattr acc_no self;
      append_transaction target
        (Formatted "Received Nu." amount
           (" from " +:+ sname +:+ " (Acc: " +:+ sno +:+ ")")).

Definition mobile_topup (self : positive) (amount : float) (number : string)
    : M unit :=
  if PrimFloat.leb amount 0%float then
    raise (InvalidAmountError "Amount must be positive")
  else
    b ← getattr balance self;
    if PrimFloat.ltb b amount then
      raise (InsufficientFundsError "Not enough balance")
    else
      sub_balance self amount;;
      append_transaction self
        (Formatted "Mobile top-up Nu." amount (" to " +:+ number)).

(** Two accounts with thirty and seventy hundredths. *)
Definition small_change : gmap positive account :=
  <[2%positive := mk_account "002" "Bob" "p2" "Business" 0.7%float []]>
    (<[1%positive := mk_account "001" "Alice" "p1" "Personal" 0.3%float []]> ∅).

(** One account with ten hundredths. *)
Definition a_dime : gmap positive account :=
  {[1%positive := mk_account "001" "Alice" "p1" "Personal" 0.1%float []]}.

End Binary64.

(** ** Each method, run to its outcome *)

Ltac run_M :=
  unfold add_balance, sub_balance, append_transaction, getattr, setattr,
    raise, mbind, M_bind, mret, M_ret.

(** Reads and writes of the store, resolved one after the other. *)
Ltac run_store :=
  repeat (simpl;
          first [ rewrite lookup_insert_eq
                | rewrite lookup_insert_ne by done
                | match goal with
                  | H : ?h !! ?l = _ |- context [?h !! ?l] => rewrite H
                  end ]).

Lemma deposit_unfold (l : loc) (x : Z) (h : heap) :
  deposit l x h =
  if bool_decide (x ≤ 0) then
    Raised (InvalidAmountError "Amount must be positive") h
  else
    match h !! l with
    | Some a => Returned tt (<[l := credited x ("Deposited Nu." +:+ fmt x) a]> h)
    | None => Stuck
    end.
Proof.
  unfold deposit. case_bool_decide; [done|]. run_M.
  destruct (h !! l) as [a|] eqn:Hl; [|done]. run_store.
  by rewrite insert_insert_eq.
Qed.

Lemma withdraw_unfold (l : loc) (x : Z) (h : heap) :
  withdraw l x h =
  if bool_decide (x ≤ 0) then
    Raised (InvalidAmountError "Amount must be positive") h
  else
    match h !! l with
    | Some a =>
      if bool_decide (x > balance a) then
        Raised (InsufficientFundsError "Not enough balance") h
      else
        Returned tt (<[l := debited x ("Withdrew Nu." +:+ fmt x) a]> h)
    | None => Stuck
    end.
Proof.
  unfold withdraw. case_bool_decide; [done|]. run_M.
  destruct (h !! l) as [a|] eqn:Hl; [|done]. simpl.
  case_bool_decide; [done|]. run_store.
  by rewrite insert_insert_eq.
Qed.

Lemma mobile_topup_unfold (l : loc) (x : Z) (number : string) (h : heap) :
  mobile_topup l x number h =
  if bool_decide (x ≤ 0) then
    Raised (InvalidAmountError "Amount must be positive") h
  else
    match h !! l with
    | Some a =>
      if bool_decide (x > balance a) then
        Raised (InsufficientFundsError "Not enough balance") h
      else
        Returned tt
          (<[l := debited x ("Mobile top-up Nu." +:+ fmt x +:+ " to " +:+ number) a]> h)
    | None => Stuck
    end.
Proof.
  unfold mobile_topup. case_bool_decide; [done|]. run_M.
  destruct (h !! l) as [a|] eqn:Hl; [|done]. simpl.
  case_bool_decide; [done|]. run_store.
  by rewrite insert_insert_eq.
Qed.

Lemma transfer_unfold (l : loc) (x : Z) (t : loc) (h : heap) :
  transfer l x t h =
  if bool_decide (x ≤ 0) then
    Raised (InvalidAmountError "Amount must be positive") h
  else
    match h !! l with
    | Some a =>
      if bool_decide (x > balance a) then
        Raised (InsufficientFundsError "Not enough balance") h
      else if bool_decide (t = l) then
        Raised (InvalidAmountError "Cannot transfer to same account") h
      else
        match h !! t with
        | Some b =>
          Returned tt
            (<[t := credited x (received_record x a) b]>
               (<[l := debited x (sent_record x b) a]> h))
        | None => Stuck
        end
    | None => Stuck
    end.
Proof.
  unfold transfer. case_bool_decide; [done|]. run_M.
  destruct (h !! l) as [a|] eqn:Hl; [|done]. simpl.
  case_bool_decide; [done|]. case_bool_decide as Hne; [done|].
  assert (l ≠ t) by congruence.
  destruct (h !! t) as [b|] eqn:Ht; run_store; [|done].
  apply (f_equal (Returned tt)), map_eq. intros k.
  destruct (decide (k = t)) as [->|Hkt].
  { by rewrite !lookup_insert_eq. }
  rewrite !(lookup_insert_ne _ t k) by done.
  destruct (decide (k = l)) as [->|Hkl].
  { by rewrite !lookup_insert_eq. }
  by rewrite !lookup_insert_ne by done.
Qed.

(** ** When a call returns, and what it leaves *)

Lemma deposit_returned (l : loc) (x : Z) (h h' : heap) :
  deposit l x h = Returned tt h' →
  0 < x ∧ ∃ a, h !! l = Some a ∧
    h' = <[l := credited x ("Deposited Nu." +:+ fmt x) a]> h.
Proof.
  rewrite deposit_unfold. case_bool_decide; [done|].
  destruct (h !! l) as [a|]; [|done]. intros [= <-].
  split; [lia|]. by exists a.
Qed.

Lemma withdraw_returned (l : loc) (x : Z) (h h' : heap) :
  withdraw l x h = Returned tt h' →
  0 < x ∧ ∃ a, h !! l = Some a ∧ x ≤ balance a ∧
    h' = <[l := debited x ("Withdrew Nu." +:+ fmt x) a]> h.
Proof.
  rewrite withdraw_unfold. case_bool_decide; [done|].
  destruct (h !! l) as [a|]; [|done]. case_bool_decide; [done|].
  intros [= <-]. split; [lia|]. exists a. split_and!; [done|lia|done].
Qed.

Lemma mobile_topup_returned (l : loc) (x : Z) (number : string) (h h' : heap) :
  mobile_topup l x number h = Returned tt h' →
  0 < x ∧ ∃ a, h !! l = Some a ∧ x ≤ balance a ∧
    h' = <[l := debited x ("Mobile top-up Nu." +:+ fmt x +:+ " to " +:+ number) a]> h.
Proof.
  rewrite mobile_topup_unfold. case_bool_decide; [done|].
  destruct (h !! l) as [a|]; [|done]. case_bool_decide; [done|].
  intros [= <-]. split; [lia|]. exists a. split_and!; [done|lia|done].
Qed.

Lemma transfer_returned (l : loc) (x : Z) (t : loc) (h h' : heap) :
  transfer l x t h = Returned tt h' →
  0 < x ∧ t ≠ l ∧ ∃ a b, h !! l = Some a ∧ h !! t = Some b ∧ x ≤ balance a ∧
    h' = <[t := credited x (received_record x a) b]>
           (<[l := debited x (sent_record x b) a]> h).
Proof.
  rewrite transfer_unfold. case_bool_decide; [done|].
  destruct (h !! l) as [a|]; [|done]. case_bool_decide; [done|].
  case_bool_decide; [done|]. destruct (h !! t) as [b|]; [|done].
  intros [= <-]. split; [lia|]. split; [done|].
  exists a, b. split_and!; [done|done|lia|done].
Qed.

(** An exception leaves the store as the call found it. *)
Lemma raised_store (c : call) (h h' : heap) (e : exn) :
  run_call c h = Raised e h' → h' = h.
Proof.
  destruct c; simpl;
    rewrite ?deposit_unfold, ?withdraw_unfold, ?transfer_unfold,
      ?mobile_topup_unfold;
    repeat case_bool_decide; repeat case_match; congruence.
Qed.

(** No call removes an object or assigns its number, name, password or
    type, and the log it had is the beginning of the log it has. *)
Lemma run_call_frame (c : call) (h h' : heap) :
  final_store (run_call c h) = Some h' →
  ∀ k a, h !! k = Some a →
    ∃ a', h' !! k = Some a' ∧ same_identity a a' ∧
      transactions a `prefix_of` transactions a'.
Proof.
  intros Hrun k a Hk.
  destruct (run_call c h) as [[] h1|e h1|] eqn:Hc; simplify_eq/=.
  - destruct c; simpl in Hc.
    + apply deposit_returned in Hc as (_ & a0 & Hl & ->).
      destruct (decide (k = self)) as [->|]; simplify_map_eq;
        eexists; (split; [done|]); split; try done; by apply prefix_app_r.
    + apply withdraw_returned in Hc as (_ & a0 & Hl & _ & ->).
      destruct (decide (k = self)) as [->|]; simplify_map_eq;
        eexists; (split; [done|]); split; try done; by apply prefix_app_r.
    + apply transfer_returned in Hc as (_ & Hne & a0 & b0 & Hl & Ht & _ & ->).
      destruct (decide (k = target)) as [->|];
        [|destruct (decide (k = self)) as [->|]]; simplify_map_eq;
        eexists; (split; [done|]); split; try done; by apply prefix_app_r.
    + apply mobile_topup_returned in Hc as (_ & a0 & Hl & _ & ->).
      destruct (decide (k = self)) as [->|]; simplify_map_eq;
        eexists; (split; [done|]); split; try done; by apply prefix_app_r.
  - apply raised_store in Hc as ->. by exists a.
Qed.

Lemma two_accounts_ledger : two_accounts ∅ = Returned (1%positive, 2%positive) ledger.
Proof. vm_compute. reflexivity. Qed.

(** ** The unit tests of the repository, on these two accounts *)

Example test_deposit_negative_amount :
  deposit 1 (-100) ledger =
    Raised (InvalidAmountError "Amount must be positive") ledger.
Proof. reflexivity. Qed.

Example test_transfer_to_self :
  transfer 1 100 1 ledger =
    Raised (InvalidAmountError "Cannot transfer to same account") ledger.
Proof. vm_compute. reflexivity. Qed.

Example test_withdraw_insufficient_funds :
  withdraw 2 1000 ledger =
    Raised (InsufficientFundsError "Not enough balance") ledger.
Proof. vm_compute. reflexivity. Qed.

Example test_mobile_topup_insufficient_funds :
  mobile_topup 2 600 "17123456" ledger =
    Raised (InsufficientFundsError "Not enough balance") ledger.
Proof. vm_compute. reflexivity. Qed.

Example test_mobile_topup_success :
  (mobile_topup 1 100 "17123456";;
   b ← getattr balance 1; ts ← get_transactions 1; mret (b, ts)) ledger =
  Returned (900, ["Mobile top-up Nu.100 to 17123456"])
    (<[1%positive := debited 100 "Mobile top-up Nu.100 to 17123456" alice]> ledger).
Proof. vm_compute. reflexivity. Qed.

Example test_transaction_history_recording :
  ∃ h', (deposit 1 100;; withdraw 1 50;; get_transactions 1) ledger =
          Returned ["Deposited Nu.100"; "Withdrew Nu.50"] h'.
Proof. eexists. vm_compute. reflexivity. Qed.

(** ** Transfers *)

(** C1, as the code has it: on integer amounts and balances, whose
    arithmetic is exact, a transfer of a positive amount [x] from an account
    to a distinct account, with [x] no more than the sender's balance,
    returns; the sender's balance has gone down by exactly [x], the
    receiver's has gone up by exactly [x], and the sum of the two is what it
    was.  (On floats the two new balances are rounded, and neither the
    exact difference nor the sum is kept.) *)
Theorem transfer_conserves (h : heap) (A B : loc) (a b : BankAccount) (x : Z) :
  h !! A = Some a → h !! B = Some b → B ≠ A →
  0 < x → x ≤ balance a →
  ∃ h' a' b',
    transfer A x B h = Returned tt h' ∧
    h' !! A = Some a' ∧ h' !! B = Some b' ∧
    balance a' = balance a - x ∧
    balance b' = balance b + x ∧
    balance a' + balance b' = balance a + balance b.
Proof.
  intros HA HB Hne Hpos Hle. rewrite transfer_unfold, HA, HB.
  rewrite !bool_decide_eq_false_2 by (done || lia).
  eexists _, _, _. split; [done|].
  rewrite lookup_insert_ne by done. rewrite !lookup_insert_eq.
  split_and!; [done|done|done|done|simpl; lia].
Qed.

Lemma transfer_conserves_witness :
  ∃ h' a' b',
    transfer 1 200 2 ledger = Returned tt h' ∧
    h' !! 1%positive = Some a' ∧ h' !! 2%positive = Some b' ∧
    balance a' = balance alice - 200 ∧
    balance b' = balance bob + 200 ∧
    balance a' + balance b' = balance alice + balance bob.
Proof.
  apply (transfer_conserves ledger 1 2 alice bob 200);
    [reflexivity | reflexivity | lia | lia | simpl; lia].
Defined.

(** C10: the guard against a transfer to oneself compares objects, not
    account numbers: between two distinct objects that carry the same
    account number, a transfer of a positive amount within the sender's
    balance returns, and moves the amount. *)
Theorem transfer_between_namesakes (h : heap) (A B : loc) (a b : BankAccount)
    (x : Z) :
  h !! A = Some a → h !! B = Some b →
  A ≠ B → acc_no a = acc_no b →
  0 < x → x ≤ balance a →
  transfer A x B h =
    Returned tt (<[B := credited x (received_record x a) b]>
                   (<[A := debited x (sent_record x b) a]> h)).
Proof.
  intros HA HB Hne _ Hpos Hle. rewrite transfer_unfold, HA, HB.
  by rewrite !bool_decide_eq_false_2 by (done || lia).
Qed.

Lemma transfer_between_namesakes_witness :
  transfer 1 200 2 namesakes =
    Returned tt
      (<[2%positive := credited 200 (received_record 200 alice)
                         (mkBankAccount "001" "Bob" "p2" "Business" 500 [])]>
         (<[1%positive := debited 200
                            (sent_record 200
                               (mkBankAccount "001" "Bob" "p2" "Business" 500 []))
                            alice]> namesakes)).
Proof.
  apply (transfer_between_namesakes namesakes 1 2 alice
           (mkBankAccount "001" "Bob" "p2" "Business" 500 []) 200);
    [reflexivity | reflexivity | lia | reflexivity | lia | simpl; lia].
Defined.

(** A transfer to oneself, amount by amount. *)
Lemma transfer_to_self (h : heap) (A : loc) (a : BankAccount) (x : Z) :
  h !! A = Some a →
  transfer A x A h =
    if bool_decide (x ≤ 0) then
      Raised (InvalidAmountError "Amount must be positive") h
    else if bool_decide (x > balance a) then
      Raised (InsufficientFundsError "Not enough balance") h
    else
      Raised (InvalidAmountError "Cannot transfer to same account") h.
Proof.
  intros HA. rewrite transfer_unfold, HA.
  by rewrite (bool_decide_eq_true_2 (A = A)) by done.
Qed.

(** C4, as the code has it: a transfer whose target is the sender itself
    never returns and leaves the store alone; the exception is an
    [InvalidAmountError] when the amount is not positive or is within the
    balance, and an [InsufficientFundsError] when the amount is positive and
    exceeds the balance. *)
Theorem self_transfer_fails (h : heap) (A : loc) (a : BankAccount) (x : Z) :
  h !! A = Some a →
  ∃ e, transfer A x A h = Raised e h ∧
    (x ≤ 0 ∨ x ≤ balance a → kind_of e = InvalidAmount) ∧
    (0 < x → balance a < x → kind_of e = InsufficientFunds).
Proof.
  intros HA. rewrite (transfer_to_self h A a x HA).
  repeat case_bool_decide; eexists; (split; [done|]); simpl; split;
    intros; (done || lia).
Qed.

Lemma self_transfer_fails_witness :
  ∃ e, transfer 1 100 1 ledger = Raised e ledger ∧
    (100 ≤ 0 ∨ 100 ≤ balance alice → kind_of e = InvalidAmount) ∧
    (0 < 100 → balance alice < 100 → kind_of e = InsufficientFunds).
Proof. apply (self_transfer_fails ledger 1 alice 100). reflexivity. Defined.

(** C4 as stated fails: with 1000 on the account, a transfer of 1500 to the
    account itself raises [InsufficientFundsError], not
    [InvalidAmountError]. *)
Lemma self_transfer_insufficient_funds :
  transfer 1 1500 1 ledger =
    Raised (InsufficientFundsError "Not enough balance") ledger
  ∧ ¬ ∃ msg h', transfer 1 1500 1 ledger = Raised (InvalidAmountError msg) h'.
Proof.
  assert (transfer 1 1500 1 ledger =
            Raised (InsufficientFundsError "Not enough balance") ledger) as Hrun.
  { rewrite (transfer_to_self ledger 1 alice 1500) by reflexivity. reflexivity. }
  split; [done|]. intros (msg & h' & Hinv). congruence.
Qed.

(** ** Failure, proved *)

Lemma rejected_raises (c : call) (h : heap) :
  rejected c h → ∃ e, run_call c h = Raised e h.
Proof.
  destruct c; simpl;
    rewrite ?deposit_unfold, ?withdraw_unfold, ?transfer_unfold,
      ?mobile_topup_unfold.
  - intros ?. rewrite bool_decide_eq_true_2 by done. by eexists.
  - intros [?|(a & -> & ?)]; repeat case_bool_decide;
      try (exfalso; lia); by eexists.
  - intros [?|(a & -> & [?| ->])]; repeat case_bool_decide;
      try (exfalso; lia); try (exfalso; congruence); by eexists.
  - intros [?|(a & -> & ?)]; repeat case_bool_decide;
      try (exfalso; lia); by eexists.
Qed.

(** C3: a deposit, withdrawal, transfer or top-up that raises was turned
    down for one of the three reasons, and the store it leaves is the store
    it found: the balance and the log of the account, of the target of a
    transfer and of every other account are what they were. *)
Theorem failure_mutates_nothing (c : call) (h h' : heap) (e : exn) :
  run_call c h = Raised e h' →
  h' = h ∧ rejected c h.
Proof.
  intros Hc. split; [by eapply raised_store|].
  destruct c; simpl in *;
    rewrite ?deposit_unfold, ?withdraw_unfold, ?transfer_unfold,
      ?mobile_topup_unfold in Hc;
    repeat case_bool_decide; try done; try (by left);
    destruct (h !! self) as [a|] eqn:Hs; try done;
    repeat case_bool_decide; try done;
    try (right; exists a; split; [done|]; by auto).
  by destruct (h !! target).
Qed.

Lemma failure_mutates_nothing_witness :
  ledger = ledger ∧ rejected (Withdraw 2 1000) ledger.
Proof.
  apply (failure_mutates_nothing (Withdraw 2 1000) ledger ledger
           (InsufficientFundsError "Not enough balance")).
  vm_compute. reflexivity.
Defined.

(** ** Balances stay non-negative *)

Lemma run_call_nonneg (c : call) (h h' : heap) :
  run_call c h = Returned tt h' →
  ∀ l a, h !! l = Some a → 0 ≤ balance a →
    ∃ a', h' !! l = Some a' ∧ 0 ≤ balance a'.
Proof.
  intros Hc l a Hl Hnn. destruct c; simpl in Hc.
  - apply deposit_returned in Hc as (? & a0 & ? & ->).
    destruct (decide (l = self)) as [->|]; simplify_map_eq;
      eexists; (split; [done|]); simpl; lia.
  - apply withdraw_returned in Hc as (? & a0 & ? & ? & ->).
    destruct (decide (l = self)) as [->|]; simplify_map_eq;
      eexists; (split; [done|]); simpl; lia.
  - apply transfer_returned in Hc as (? & ? & a0 & b0 & ? & ? & ? & ->).
    destruct (decide (l = target)) as [->|];
      [|destruct (decide (l = self)) as [->|]]; simplify_map_eq;
      eexists; (split; [done|]); simpl; lia.
  - apply mobile_topup_returned in Hc as (? & a0 & ? & ? & ->).
    destruct (decide (l = self)) as [->|]; simplify_map_eq;
      eexists; (split; [done|]); simpl; lia.
Qed.

Lemma run_calls_cons (c : call) (cs : list call) (h h' : heap) :
  run_calls (c :: cs) h = Returned tt h' →
  ∃ h1, run_call c h = Returned tt h1 ∧ run_calls cs h1 = Returned tt h'.
Proof.
  simpl. unfold mbind, M_bind.
  destruct (run_call c h) as [[] h1|e h1|]; [|done..]. intros. by exists h1.
Qed.

(** The constructor stores the opening balance it is given. *)
Lemma BankAccount_init_lookup (n nm pw ty : string) (b : Z) (h h' : heap)
    (l : loc) :
  BankAccount_init n nm pw ty b h = Returned l h' →
  h !! l = None ∧ h' = <[l := mkBankAccount n nm pw ty b []]> h.
Proof.
  unfold BankAccount_init. intros [= <- <-]. split; [|done].
  apply not_elem_of_dom, is_fresh.
Qed.

(** C2: an account whose balance is non-negative, as it is when the account
    is made with a non-negative opening balance, has a non-negative balance
    after any sequence of deposits, withdrawals, transfers and top-ups that
    all returned, whether it was the caller or the target of the transfers;
    so has every other account that started non-negative. *)
Theorem balance_never_negative (cs : list call) (h h' : heap) (l : loc)
    (a : BankAccount) :
  run_calls cs h = Returned tt h' →
  h !! l = Some a → 0 ≤ balance a →
  ∃ a', h' !! l = Some a' ∧ 0 ≤ balance a'.
Proof.
  revert h a. induction cs as [|c cs IH]; intros h a Hrun Hl Hnn.
  - injection Hrun as <-. by exists a.
  - apply run_calls_cons in Hrun as (h1 & Hc & Hcs).
    destruct (run_call_nonneg c h h1 Hc l a Hl Hnn) as (a1 & Hl1 & Hnn1).
    by apply (IH h1 a1).
Qed.

Lemma balance_never_negative_witness :
  ∃ a', ledger_after_busy_day !! 2%positive = Some a' ∧ 0 ≤ balance a'.
Proof.
  apply (balance_never_negative busy_day ledger ledger_after_busy_day 2 bob).
  - vm_compute. reflexivity.
  - reflexivity.
  - simpl. lia.
Defined.

(** ** The log *)

Lemma total_records_lookup (h : heap) (l : loc) (a : BankAccount) :
  h !! l = Some a →
  total_records h = (length (transactions a) + total_records (delete l h))%nat.
Proof.
  intros Hl. unfold total_records.
  apply (map_fold_delete_L (λ _ a n, length (transactions a) + n)%nat);
    [intros; lia | done].
Qed.

Lemma total_records_insert (h : heap) (l : loc) (a a' : BankAccount) (s : string) :
  h !! l = Some a → transactions a' = (transactions a ++ [s])%list →
  total_records (<[l := a']> h) = S (total_records h).
Proof.
  intros Hl Ha'.
  rewrite (total_records_lookup (<[l := a']> h) l a') by apply lookup_insert_eq.
  rewrite (total_records_lookup h l a Hl), delete_insert_eq, Ha', length_app.
  simpl. lia.
Qed.

(** C5: a deposit, withdrawal or top-up that returns has added exactly one
    record, to the log of the caller; a transfer that returns has added
    exactly two, one at the end of the sender's log and one at the end of
    the receiver's; every other object is untouched; and whatever the call
    did, returning or raising, each log it found is the beginning of the
    log it leaves. *)
Theorem history_append_only (c : call) (h h' : heap) :
  final_store (run_call c h) = Some h' →
  (∀ k a, h !! k = Some a →
     ∃ a', h' !! k = Some a' ∧ transactions a `prefix_of` transactions a') ∧
  (run_call c h = Returned tt h' →
     match c with
     | Transfer l x t =>
       t ≠ l ∧ one_appended l h h' ∧ one_appended t h h' ∧
       (∀ k, k ≠ l → k ≠ t → h' !! k = h !! k) ∧
       total_records h' = S (S (total_records h))
     | Deposit l x | Withdraw l x | MobileTopup l x _ =>
       one_appended l h h' ∧
       (∀ k, k ≠ l → h' !! k = h !! k) ∧
       total_records h' = S (total_records h)
     end).
Proof.
  intros Hfin. split.
  { intros k a Hk.
    destruct (run_call_frame c h h' Hfin k a Hk) as (a' & ? & _ & ?).
    by exists a'. }
  intros Hc. destruct c; simpl in Hc.
  - apply deposit_returned in Hc as (_ & a & Hl & ->). split_and!.
    + exists a. eexists _, _. by rewrite lookup_insert_eq.
    + intros k ?. by rewrite lookup_insert_ne.
    + by eapply total_records_insert.
  - apply withdraw_returned in Hc as (_ & a & Hl & _ & ->). split_and!.
    + exists a. eexists _, _. by rewrite lookup_insert_eq.
    + intros k ?. by rewrite lookup_insert_ne.
    + by eapply total_records_insert.
  - apply transfer_returned in Hc as (_ & Hne & a & b & Hl & Ht & _ & ->).
    split_and!.
    + done.
    + exists a. eexists _, _.
      rewrite lookup_insert_ne by done. by rewrite lookup_insert_eq.
    + exists b. eexists _, _. by rewrite lookup_insert_eq.
    + intros k ??. by rewrite !lookup_insert_ne.
    + erewrite (total_records_insert _ target b); [|by rewrite lookup_insert_ne|done].
      by erewrite (total_records_insert h self a).
  - apply mobile_topup_returned in Hc as (_ & a & Hl & _ & ->). split_and!.
    + exists a. eexists _, _. by rewrite lookup_insert_eq.
    + intros k ?. by rewrite lookup_insert_ne.
    + by eapply total_records_insert.
Qed.

Lemma history_append_only_witness :
  (∀ k a, ledger !! k = Some a →
     ∃ a', ledger_after_transfer !! k = Some a' ∧
       transactions a `prefix_of` transactions a') ∧
  (run_call (Transfer 1 200 2) ledger = Returned tt ledger_after_transfer →
     2%positive ≠ 1%positive ∧
     one_appended 1 ledger ledger_after_transfer ∧
     one_appended 2 ledger ledger_after_transfer ∧
     (∀ k, k ≠ 1%positive → k ≠ 2%positive →
        ledger_after_transfer !! k = ledger !! k) ∧
     total_records ledger_after_transfer = S (S (total_records ledger))).
Proof.
  apply (history_append_only (Transfer 1 200 2) ledger ledger_after_transfer).
  vm_compute. reflexivity.
Defined.

(** ** Top-up against withdrawal *)

(** C8: on any store and for any amount, [mobile_topup] and [withdraw]
    return together or raise together; when they raise, it is the same
    exception and the store is left alone; when they return, both have
    taken the amount from the balance of the same object, and the stores
    they leave differ in nothing but the record put at the end of its log. *)
Theorem topup_matches_withdraw (l : loc) (x : Z) (number : string) (h : heap) :
  match withdraw l x h, mobile_topup l x number h with
  | Returned _ hw, Returned _ ht =>
    ∃ a, h !! l = Some a ∧
      hw = <[l := debited x ("Withdrew Nu." +:+ fmt x) a]> h ∧
      ht = <[l := debited x
                    ("Mobile top-up Nu." +:+ fmt x +:+ " to " +:+ number) a]> h
  | Raised ew hw, Raised et ht =>
    ew = et ∧ kind_of ew = kind_of et ∧ hw = h ∧ ht = h
  | Stuck, Stuck => True
  | _, _ => False
  end.
Proof.
  rewrite withdraw_unfold, mobile_topup_unfold.
  case_bool_decide; [done|]. destruct (h !! l) as [a|]; [|done].
  case_bool_decide; [done|]. by exists a.
Qed.

(** ** Deposits commute *)

(** C9, as the code has it: on integer amounts and balances, whose
    arithmetic is exact, two deposits of positive amounts, made in either
    order on the same account, both return and leave the same balance: what
    was there plus the two amounts.  (On floats the two orders may round
    differently.) *)
Theorem deposit_commutes (l : loc) (acc : BankAccount) (a b : Z) (h : heap) :
  h !! l = Some acc → 0 < a → 0 < b →
  ∃ h1 h2 a1 a2,
    (deposit l a;; deposit l b) h = Returned tt h1 ∧
    (deposit l b;; deposit l a) h = Returned tt h2 ∧
    h1 !! l = Some a1 ∧ h2 !! l = Some a2 ∧
    balance a1 = balance a2 ∧
    balance a1 = balance acc + a + b.
Proof.
  intros Hl Ha Hb. unfold mbind, M_bind.
  rewrite !deposit_unfold, Hl, !bool_decide_eq_false_2 by lia.
  rewrite !deposit_unfold, !lookup_insert_eq, !bool_decide_eq_false_2 by lia.
  eexists _, _, _, _. rewrite !lookup_insert_eq.
  split_and!; [done..| simpl; lia | simpl; lia].
Qed.

Lemma deposit_commutes_witness :
  ∃ h1 h2 a1 a2,
    (deposit 1 100;; deposit 1 500) ledger = Returned tt h1 ∧
    (deposit 1 500;; deposit 1 100) ledger = Returned tt h2 ∧
    h1 !! 1%positive = Some a1 ∧ h2 !! 1%positive = Some a2 ∧
    balance a1 = balance a2 ∧
    balance a1 = balance alice + 100 + 500.
Proof.
  apply (deposit_commutes 1 alice 100 500 ledger); [reflexivity | lia | lia].
Defined.

(** ** The transfer of 200 from Alice to Bob *)

(** C6, as the code has it: the transfer of 200 from account 001 (Alice,
    1000) to account 002 (Bob, 500) returns, leaves 800 and 700, and the
    records it logs carry the currency prefix: "Sent Nu.200 to Bob (Acc: 002)"
    on 001 and "Received Nu.200 from Alice (Acc: 001)" on 002. *)
Theorem transfer_scenario_records :
  ∃ h' t1 t2,
    transfer_scenario ∅ = Returned (800, 700, t1, t2) h' ∧
    "Sent Nu.200 to Bob (Acc: 002)" ∈ t1 ∧
    "Received Nu.200 from Alice (Acc: 001)" ∈ t2.
Proof.
  eexists _, _, _. split; [vm_compute; reflexivity|].
  split; apply list_elem_of_singleton; reflexivity.
Qed.

(** C6 as stated fails: no record of the two logs reads "Sent 200 to Bob
    (Acc: 002)" or "Received 200 from Alice (Acc: 001)". *)
Lemma transfer_scenario_no_bare_amount :
  ¬ ∃ h' t1 t2,
    transfer_scenario ∅ = Returned (800, 700, t1, t2) h' ∧
    "Sent 200 to Bob (Acc: 002)" ∈ t1 ∧
    "Received 200 from Alice (Acc: 001)" ∈ t2.
Proof.
  intros (h' & t1 & t2 & Hrun & Hsent & _).
  vm_compute in Hrun. injection Hrun as <- <- <-.
  apply list_elem_of_singleton in Hsent. discriminate Hsent.
Qed.

(** ** Logging in *)

Section LoggingIn.
Import BankingApp.

Lemma sign_up_registry_ok a n ty p b self h self' h' out :
  registry_ok self h →
  sign_up a n ty p b self h = Some (self', h', out) →
  registry_ok self' h'.
Proof.
  intros Hok Hs. unfold sign_up in Hs.
  repeat case_match; simplify_eq; try done.
  match goal with
  | H : BankAccount_init _ _ _ _ _ _ = _ |- _ =>
    apply BankAccount_init_lookup in H as [Hfresh ->]
  end.
  intros k l'. simpl. destruct (decide (k = String a0 s0)) as [->|Hk].
  - rewrite lookup_insert_eq. intros [= <-]. split; [done|].
    eexists. by rewrite lookup_insert_eq.
  - rewrite lookup_insert_ne by done. intros Hl'.
    destruct (Hok k l' Hl') as (Hne & a' & Ha' & Hno). split; [done|].
    exists a'. split; [|done].
    rewrite lookup_insert_ne; [done|]. intros ->. congruence.
Qed.

Lemma login_registry_ok a p self h self' h' out :
  registry_ok self h →
  login a p self h = Some (self', h', out) →
  registry_ok self' h'.
Proof.
  intros Hok Hs. unfold login in Hs.
  repeat case_match; simplify_eq; done.
Qed.

Lemma run_call_registry_ok c self h h' :
  registry_ok self h →
  final_store (run_call c h) = Some h' →
  registry_ok self h'.
Proof.
  intros Hok Hfin n l Hn. destruct (Hok n l Hn) as (Hne & a & Ha & Hno).
  split; [done|].
  destruct (run_call_frame c h h' Hfin l a Ha) as (a' & Ha' & Hid & _).
  exists a'. split; [done|]. destruct Hid as (-> & _). done.
Qed.

(** The registry of a running application is in order. *)
Lemma reachable_registry_ok self h : reachable self h → registry_ok self h.
Proof.
  induction 1 as [|? ? ? ? ? ? ? ? ? ? _ IH Hs|? ? ? ? ? ? ? _ IH Hs
                  |? ? ? ? ? _ IH Hs|? ? ? ? _ IH Hc|? ? ? ? ? _ IH Hc].
  - intros n l. unfold init. simpl. by rewrite lookup_empty.
  - by eapply sign_up_registry_ok.
  - by eapply login_registry_ok.
  - unfold logout in Hs. by simplify_eq.
  - eapply run_call_registry_ok; [done|]. by rewrite Hc.
  - eapply run_call_registry_ok; [done|]. by rewrite Hc.
Qed.

(** C7: for an account registered in a running application, logging in
    with its number and its very password shows the welcome box and makes
    the account the current one; logging in with its number and anything
    else, a cancelled dialog included, shows the "Incorrect password" box
    and leaves the application object and the store as they were: the
    current account, the registry and every balance and log. *)
Theorem login_checks_password (self : t) (h : heap) (n : string) (l : loc)
    (a : BankAccount) :
  reachable self h →
  accounts self !! n = Some l → h !! l = Some a →
  acc_no a = n ∧
  login (Some n) (Some (password a)) self h =
    Some (mk (accounts self) (Some l), h,
          [showinfo "Success" ("Welcome " +:+ name a +:+ "!")]) ∧
  ∀ pw, pw ≠ Some (password a) →
    login (Some n) pw self h = Some (self, h, [AuthenticationFailed]).
Proof.
  intros Hreach Hn Hl.
  destruct (reachable_registry_ok self h Hreach n l Hn)
    as (Hne & a' & Ha' & Hno).
  assert (a' = a) as -> by congruence.
  assert (accounts self ≠ ∅) as Hnonempty.
  { intros Hemp. rewrite Hemp, lookup_empty in Hn. done. }
  split; [done|]. unfold login.
  rewrite (bool_decide_eq_false_2 _ Hnonempty).
  destruct n as [|c r]; [done|]. rewrite Hn, Hl. split.
  - by rewrite bool_decide_eq_false_2 by (intros Hpw; by apply Hpw).
  - intros pw Hpw. by rewrite bool_decide_eq_true_2.
Qed.

Lemma sign_up_alice :
sign_up (Some "001") (Some "Alice") (Some "personal") (Some "p1") (Some 1000)
  init ∅ =
Some (registered_app, registered_store,
      [showinfo "Success"
         ("Personal account created for Alice" +:+ newline +:+ "Acc No: 001")]).
Proof. vm_compute. reflexivity. Qed.

Lemma login_checks_password_witness :
acc_no alice = "001" ∧
login (Some "001") (Some (password alice)) registered_app registered_store =
  Some (mk (accounts registered_app) (Some 1%positive), registered_store,
        [showinfo "Success" ("Welcome " +:+ name alice +:+ "!")]) ∧
∀ pw, pw ≠ Some (password alice) →
  login (Some "001") pw registered_app registered_store =
    Some (registered_app, registered_store, [AuthenticationFailed]).
Proof.
apply (login_checks_password registered_app registered_store "001" 1 alice).
- eapply reach_sign_up; [apply reach_init | apply sign_up_alice].
- vm_compute. reflexivity.
- vm_compute. reflexivity.
Defined.

End LoggingIn.

(** ** Acceptance *)

Lemma accepted_returns (c : call) (h : heap) :
  allocated c h → ¬ rejected c h → ∃ h', run_call c h = Returned tt h'.
Proof.
  destruct c; simpl;
    rewrite ?deposit_unfold, ?withdraw_unfold, ?transfer_unfold,
      ?mobile_topup_unfold.
  - intros [a ->] Hok. rewrite bool_decide_eq_false_2 by done. by eexists.
  - intros [a Ha] Hok. rewrite Ha in *.
    rewrite !bool_decide_eq_false_2; [by eexists| |]; naive_solver.
  - intros [[a Ha] [b Hb]] Hok. rewrite Ha in *. rewrite Hb.
    rewrite !bool_decide_eq_false_2; [by eexists| | |]; naive_solver.
  - intros [a Ha] Hok. rewrite Ha in *.
    rewrite !bool_decide_eq_false_2; [by eexists| |]; naive_solver.
Qed.

(** X1: a call on objects of the store returns exactly when nothing speaks
    against it: the amount is positive, a withdrawal, transfer or top-up
    stays within the balance (the whole balance may go), and a transfer aims
    at another object. *)
Theorem returns_iff_not_rejected (c : call) (h : heap) :
  allocated c h →
  (∃ h', run_call c h = Returned tt h') ↔ ¬ rejected c h.
Proof.
  intros Hall. split; [|by apply accepted_returns].
  intros [h' Hret] Hrej. apply rejected_raises in Hrej as [e He]. congruence.
Qed.

Lemma returns_iff_not_rejected_witness :
  (∃ h', run_call (Withdraw 2 500) ledger = Returned tt h')
  ↔ ¬ rejected (Withdraw 2 500) ledger.
Proof.
  apply (returns_iff_not_rejected (Withdraw 2 500) ledger).
  simpl. vm_compute. eexists. reflexivity.
Defined.

(** ** There and back *)

(** X2: on integer amounts and balances, whose arithmetic is exact,
    a deposit followed by the withdrawal of the same amount, on an account
    that is not overdrawn, returns and leaves the balance it found; the log
    has the two records more, and no other object is touched. *)
Theorem deposit_then_withdraw (h : heap) (l : loc) (a : BankAccount) (x : Z) :
  h !! l = Some a → 0 < x → 0 ≤ balance a →
  ∃ h' a',
    (deposit l x;; withdraw l x) h = Returned tt h' ∧
    h' !! l = Some a' ∧
    balance a' = balance a ∧
    transactions a' =
      (transactions a ++ ["Deposited Nu." +:+ fmt x; "Withdrew Nu." +:+ fmt x])%list ∧
    ∀ k, k ≠ l → h' !! k = h !! k.
Proof.
  intros Hl Hx Hb. unfold mbind, M_bind.
  rewrite deposit_unfold, Hl, bool_decide_eq_false_2 by lia.
  rewrite withdraw_unfold, lookup_insert_eq.
  rewrite !bool_decide_eq_false_2 by (simpl; lia).
  eexists _, _. split; [done|]. rewrite lookup_insert_eq.
  split_and!; [done|simpl; lia|simpl; by rewrite <-app_assoc|].
  intros k Hk. by rewrite !lookup_insert_ne.
Qed.

Lemma deposit_then_withdraw_witness :
  ∃ h' a',
    (deposit 2 300;; withdraw 2 300) ledger = Returned tt h' ∧
    h' !! 2%positive = Some a' ∧
    balance a' = balance bob ∧
    transactions a' =
      (transactions bob ++ ["Deposited Nu." +:+ fmt 300; "Withdrew Nu." +:+ fmt 300])%list ∧
    ∀ k, k ≠ 2%positive → h' !! k = ledger !! k.
Proof.
  apply (deposit_then_withdraw ledger 2 bob 300); [reflexivity | lia | simpl; lia].
Defined.

(** X3: on integer amounts and balances, whose arithmetic is exact,
    a transfer and the transfer of the same amount back, between two
    accounts of which the first can pay and the second is not overdrawn,
    both return and leave each balance as they found it; each log has one
    record for the money sent and one for the money received. *)
Theorem transfer_there_and_back (h : heap) (A B : loc) (a b : BankAccount)
    (x : Z) :
  h !! A = Some a → h !! B = Some b → A ≠ B →
  0 < x → x ≤ balance a → 0 ≤ balance b →
  ∃ h' a' b',
    (transfer A x B;; transfer B x A) h = Returned tt h' ∧
    h' !! A = Some a' ∧ h' !! B = Some b' ∧
    balance a' = balance a ∧ balance b' = balance b ∧
    transactions a' =
      (transactions a ++ [sent_record x b; received_record x b])%list ∧
    transactions b' =
      (transactions b ++ [received_record x a; sent_record x a])%list.
Proof.
  intros HA HB Hne Hx Hle Hb. unfold mbind, M_bind.
  rewrite transfer_unfold, HA, HB.
  rewrite !bool_decide_eq_false_2 by (done || lia).
  rewrite transfer_unfold, lookup_insert_eq.
  rewrite lookup_insert_ne, lookup_insert_eq by done.
  rewrite !bool_decide_eq_false_2 by (done || simpl; lia).
  eexists _, _, _. split; [done|].
  rewrite lookup_insert_eq, lookup_insert_ne, lookup_insert_eq by done.
  split_and!; [done|done|simpl; lia|simpl; lia| |];
    simpl; by rewrite <-app_assoc.
Qed.

Lemma transfer_there_and_back_witness :
  ∃ h' a' b',
    (transfer 1 1000 2;; transfer 2 1000 1) ledger = Returned tt h' ∧
    h' !! 1%positive = Some a' ∧ h' !! 2%positive = Some b' ∧
    balance a' = balance alice ∧ balance b' = balance bob ∧
    transactions a' =
      (transactions alice ++ [sent_record 1000 bob; received_record 1000 bob])%list ∧
    transactions b' =
      (transactions bob ++ [received_record 1000 alice; sent_record 1000 alice])%list.
Proof.
  apply (transfer_there_and_back ledger 1 2 alice bob 1000);
    [reflexivity | reflexivity | lia | lia | simpl; lia | simpl; lia].
Defined.

(** ** The money in the store *)

Lemma total_balance_lookup (h : heap) (l : loc) (a : BankAccount) :
  h !! l = Some a →
  total_balance h = balance a + total_balance (delete l h).
Proof.
  intros Hl. unfold total_balance.
  apply (map_fold_delete_L (λ _ a s, balance a + s)); [intros; lia | done].
Qed.

Lemma total_balance_insert (h : heap) (l : loc) (a a' : BankAccount) :
  h !! l = Some a →
  total_balance (<[l := a']> h) = total_balance h + (balance a' - balance a).
Proof.
  intros Hl.
  rewrite (total_balance_lookup (<[l := a']> h) l a') by apply lookup_insert_eq.
  rewrite (total_balance_lookup h l a Hl), delete_insert_eq. lia.
Qed.

Lemma run_call_total_balance (c : call) (h h' : heap) :
  run_call c h = Returned tt h' →
  total_balance h' = total_balance h + net c.
Proof.
  intros Hc. destruct c; simpl in *.
  - apply deposit_returned in Hc as (_ & a & Hl & ->).
    rewrite (total_balance_insert h self a) by done. simpl. lia.
  - apply withdraw_returned in Hc as (_ & a & Hl & _ & ->).
    rewrite (total_balance_insert h self a) by done. simpl. lia.
  - apply transfer_returned in Hc as (_ & Hne & a & b & Hl & Ht & _ & ->).
    rewrite (total_balance_insert _ target b) by by rewrite lookup_insert_ne.
    rewrite (total_balance_insert h self a) by done. simpl. lia.
  - apply mobile_topup_returned in Hc as (_ & a & Hl & _ & ->).
    rewrite (total_balance_insert h self a) by done. simpl. lia.
Qed.

(** X4: on integer amounts and balances, whose arithmetic is exact,
    after any sequence of calls that all returned, the sum of all balances
    of the store is what it was, plus the deposits, minus the withdrawals
    and the top-ups: transfers move money between accounts and neither make
    nor lose any. *)
Theorem money_is_conserved (cs : list call) (h h' : heap) :
  run_calls cs h = Returned tt h' →
  total_balance h' = total_balance h + foldr Z.add 0 (net <$> cs).
Proof.
  revert h. induction cs as [|c cs IH]; intros h Hrun.
  - injection Hrun as <-. simpl. lia.
  - apply run_calls_cons in Hrun as (h1 & Hc & Hcs).
    rewrite (IH h1 Hcs), (run_call_total_balance c h h1 Hc), fmap_cons.
    cbn [foldr]. lia.
Qed.

Lemma money_is_conserved_witness :
  total_balance ledger_after_busy_day
  = total_balance ledger + foldr Z.add 0 (net <$> busy_day).
Proof.
  apply (money_is_conserved busy_day ledger ledger_after_busy_day).
  vm_compute. reflexivity.
Defined.

(** ** The log as a journal *)

Lemma run_call_quoted (c : call) (h h' : heap) :
  final_store (run_call c h) = Some h' →
  ∀ k, quoted <$> h' !! k = quoted <$> h !! k.
Proof.
  intros Hfin k.
  destruct (run_call c h) as [[] h1|e h1|] eqn:Hc; simplify_eq/=.
  - destruct c; simpl in Hc.
    + apply deposit_returned in Hc as (_ & a & Hl & ->).
      destruct (decide (k = self)) as [->|]; by simplify_map_eq.
    + apply withdraw_returned in Hc as (_ & a & Hl & _ & ->).
      destruct (decide (k = self)) as [->|]; by simplify_map_eq.
    + apply transfer_returned in Hc as (_ & Hne & a & b & Hl & Ht & _ & ->).
      destruct (decide (k = target)) as [->|];
        [|destruct (decide (k = self)) as [->|]]; by simplify_map_eq.
    + apply mobile_topup_returned in Hc as (_ & a & Hl & _ & ->).
      destruct (decide (k = self)) as [->|]; by simplify_map_eq.
  - by apply raised_store in Hc as ->.
Qed.

Lemma entries_quoted (h h1 : heap) (l : loc) (c : call) :
  (∀ k, quoted <$> h1 !! k = quoted <$> h !! k) →
  entries h1 l c = entries h l c.
Proof.
  intros Hq. destruct c; simpl; try done.
  repeat case_bool_decide; try done.
  - specialize (Hq target).
    destruct (h1 !! target) as [b1|], (h !! target) as [b|]; simplify_eq/=;
      try done.
    unfold sent_record. congruence.
  - specialize (Hq self).
    destruct (h1 !! self) as [a1|], (h !! self) as [a|]; simplify_eq/=;
      try done.
    unfold received_record. congruence.
Qed.

Lemma run_call_journal (c : call) (h h' : heap) (l : loc) (a : BankAccount) :
  run_call c h = Returned tt h' → h !! l = Some a →
  ∃ a', h' !! l = Some a' ∧
    transactions a' = (transactions a ++ entries h l c)%list ∧
    balance a' = balance a + delta l c.
Proof.
  intros Hc Hl. destruct c; simpl in Hc |- *.
  - apply deposit_returned in Hc as (_ & a0 & Hs & ->).
    case_bool_decide; simplify_map_eq; eexists; (split; [done|]); simpl;
      rewrite ?app_nil_r; split; (done || lia).
  - apply withdraw_returned in Hc as (_ & a0 & Hs & _ & ->).
    case_bool_decide; simplify_map_eq; eexists; (split; [done|]); simpl;
      rewrite ?app_nil_r; split; (done || lia).
  - apply transfer_returned in Hc as (_ & Hne & a0 & b0 & Hs & Ht & _ & ->).
    repeat case_bool_decide; simplify_map_eq; eexists; (split; [done|]); simpl;
      rewrite ?app_nil_r; split; (done || lia).
  - apply mobile_topup_returned in Hc as (_ & a0 & Hs & _ & ->).
    case_bool_decide; simplify_map_eq; eexists; (split; [done|]); simpl;
      rewrite ?app_nil_r; split; (done || lia).
Qed.

(** X5: on integer amounts and balances, whose arithmetic is exact,
    after any sequence of calls that all returned, the log of an account is
    the log it had followed by the records of the calls it took part in, in
    the order of the calls, and its balance is the balance it had plus the
    amounts it received minus the amounts it paid. *)
Theorem log_is_the_journal (cs : list call) (h h' : heap) (l : loc)
    (a : BankAccount) :
  run_calls cs h = Returned tt h' → h !! l = Some a →
  ∃ a', h' !! l = Some a' ∧
    transactions a' = (transactions a ++ flat_map (entries h l) cs)%list ∧
    balance a' = balance a + foldr Z.add 0 (delta l <$> cs).
Proof.
  revert h a. induction cs as [|c cs IH]; intros h a Hrun Hl.
  - injection Hrun as <-. exists a. simpl. rewrite app_nil_r.
    split_and!; [done|done|lia].
  - apply run_calls_cons in Hrun as (h1 & Hc & Hcs).
    destruct (run_call_journal c h h1 l a Hc Hl) as (a1 & Hl1 & Ht1 & Hb1).
    destruct (IH h1 a1 Hcs Hl1) as (a' & Hl' & Ht' & Hb').
    exists a'. split; [done|]. rewrite fmap_cons. cbn [foldr flat_map].
    rewrite Ht', Ht1, Hb', Hb1.
    split; [|lia]. rewrite <-app_assoc. f_equal. f_equal.
    clear -Hc. induction cs as [|c' cs IHcs]; [done|]. cbn [flat_map].
    rewrite IHcs. f_equal. apply entries_quoted, (run_call_quoted c).
    by rewrite Hc.
Qed.

Lemma log_is_the_journal_witness :
  ∃ a', ledger_after_busy_day !! 1%positive = Some a' ∧
    transactions a' =
      (transactions alice ++ flat_map (entries ledger 1) busy_day)%list ∧
    balance a' = balance alice + foldr Z.add 0 (delta 1 <$> busy_day).
Proof.
  apply (log_is_the_journal busy_day ledger ledger_after_busy_day 1 alice).
  - vm_compute. reflexivity.
  - reflexivity.
Defined.

(** ** Signing up and logging in, case by case *)

Section Registry.
Import BankingApp.

(** Either [sign_up] changes nothing, or all five answers were good and one
    new object is filed under the new number. *)
Lemma sign_up_inv a nm ty p b self h self' h' out :
  sign_up a nm ty p b self h = Some (self', h', out) →
  (self' = self ∧ h' = h ∧ (out = [] ∨ ∃ msg, out = [showerror "Error" msg]))
  ∨ ∃ n nm' ty' p' b' l,
      a = Some n ∧ nm = Some nm' ∧ ty = Some ty' ∧ p = Some p' ∧ b = Some b' ∧
      n ≠ "" ∧ nm' ≠ "" ∧ p' ≠ "" ∧
      accounts self !! n = None ∧
      lower ty' ∈ ["personal"; "business"] ∧
      h !! l = None ∧
      h' = <[l := mkBankAccount n nm' p' (capitalize ty') b' []]> h ∧
      self' = mk (<[n := l]> (accounts self)) (current self) ∧
      out = [showinfo "Success"
               (capitalize ty' +:+ " account created for " +:+ nm' +:+ newline
                +:+ "Acc No: " +:+ n)].
Proof.
  intros Hs. unfold sign_up in Hs.
  repeat case_match; simplify_eq; try (left; by eauto).
  right.
  match goal with
  | H : BankAccount_init _ _ _ _ _ _ = _ |- _ =>
    apply BankAccount_init_lookup in H as [Hfresh ->]
  end.
  repeat match goal with
  | H : bool_decide _ = false |- _ => apply bool_decide_eq_false in H
  end.
  eexists _, _, _, _, _, _. split_and!; try done.
  - by apply eq_None_not_Some.
  - by apply dec_stable.
Qed.

(** Either [login] changes nothing and reports an error, or the number is
    registered, the password is the one of its account, and that account
    becomes the current one. *)
Lemma login_inv a p self h self' h' out :
  login a p self h = Some (self', h', out) →
  (self' = self ∧ h' = h ∧ ∃ msg, out = [showerror "Error" msg])
  ∨ ∃ n l acc,
      a = Some n ∧ accounts self !! n = Some l ∧ h !! l = Some acc ∧
      p = Some (password acc) ∧
      self' = mk (accounts self) (Some l) ∧ h' = h ∧
      out = [showinfo "Success" ("Welcome " +:+ name acc +:+ "!")].
Proof.
  intros Hl. unfold login in Hl.
  repeat case_match; simplify_eq; try (left; by eauto).
  right.
  repeat match goal with
  | H : bool_decide _ = false |- _ => apply bool_decide_eq_false in H
  end.
  eexists _, _, _. split_and!; try done. by apply dec_stable.
Qed.

(** X6: signing up never touches what is there: the current account, every
    object of the store and every registration stay as they are; and a
    number that is taken is turned down with nothing changed at all. *)
Theorem sign_up_only_adds a nm ty p b self h self' h' out :
  sign_up a nm ty p b self h = Some (self', h', out) →
  current self' = current self ∧
  (∀ k x, h !! k = Some x → h' !! k = Some x) ∧
  (∀ n l, accounts self !! n = Some l → accounts self' !! n = Some l) ∧
  (∀ n, a = Some n → n ≠ "" → is_Some (accounts self !! n) →
     self' = self ∧ h' = h ∧
     out = [showerror "Error" "Account number already exists"]).
Proof.
  intros Hs. split_and!.
  - apply sign_up_inv in Hs as [(-> & _)|(n & ? & ? & ? & ? & l & Hs)];
      [done|]. destruct_and!. by simplify_eq.
  - intros k x Hk.
    apply sign_up_inv in Hs as [(_ & -> & _)|(n & ? & ? & ? & ? & l & Hs)];
      [done|]. destruct_and!. simplify_eq.
    rewrite lookup_insert_ne; [done|]. congruence.
  - intros n0 l0 Hn0.
    apply sign_up_inv in Hs as [(-> & _)|(n & ? & ? & ? & ? & l & Hs)];
      [done|]. destruct_and!. simplify_eq. simpl.
    rewrite lookup_insert_ne; [done|]. congruence.
  - intros n -> Hne Htaken. unfold sign_up in Hs.
    destruct n as [|c r]; [done|].
    rewrite bool_decide_eq_true_2 in Hs by done. by simplify_eq.
Qed.

Lemma sign_up_only_adds_witness :
  current (mk (<["002" := 2%positive]> (accounts registered_app)) None)
    = current registered_app ∧
  (∀ k x, registered_store !! k = Some x → ledger !! k = Some x) ∧
  (∀ n l, accounts registered_app !! n = Some l →
     accounts (mk (<["002" := 2%positive]> (accounts registered_app)) None) !! n
       = Some l) ∧
  (∀ n, Some "002" = Some n → n ≠ "" →
     is_Some (accounts registered_app !! n) →
     mk (<["002" := 2%positive]> (accounts registered_app)) None = registered_app ∧
     ledger = registered_store ∧
     [showinfo "Success"
        ("Business account created for Bob" +:+ newline +:+ "Acc No: 002")] =
       [showerror "Error" "Account number already exists"]).
Proof.
  apply (sign_up_only_adds (Some "002") (Some "Bob") (Some "business")
           (Some "p2") (Some 500) registered_app registered_store).
  vm_compute. reflexivity.
Defined.

(** X7: signing up with a free, non-empty number, a non-empty name, a type that
    reads personal or business in any mix of cases, a non-empty password and
    an opening balance files a new account with exactly these data and an
    empty log; logging in right after with the same number and password
    makes it the current account. *)
Theorem sign_up_then_login (n nm ty pw : string) (b : Z) (self : t) (h : heap) :
  n ≠ "" → accounts self !! n = None → nm ≠ "" →
  lower ty ∈ ["personal"; "business"] → pw ≠ "" →
  ∃ self1 h1 out l,
    sign_up (Some n) (Some nm) (Some ty) (Some pw) (Some b) self h
      = Some (self1, h1, out) ∧
    h !! l = None ∧
    h1 !! l = Some (mkBankAccount n nm pw (capitalize ty) b []) ∧
    accounts self1 !! n = Some l ∧
    login (Some n) (Some pw) self1 h1 =
      Some (mk (accounts self1) (Some l), h1,
            [showinfo "Success" ("Welcome " +:+ nm +:+ "!")]).
Proof.
  intros Hn Hfree Hnm Hty Hpw.
  destruct n as [|c r]; [done|]. destruct nm as [|c1 r1]; [done|].
  destruct pw as [|c2 r2]; [done|].
  assert (ty ≠ "") as Hty'.
  { intros ->. simpl in Hty.
    repeat (apply elem_of_cons in Hty as [?|Hty]; [done|]).
    by apply elem_of_nil in Hty. }
  destruct ty as [|c3 r3]; [done|].
  unfold sign_up. rewrite Hfree.
  rewrite (bool_decide_eq_false_2 (is_Some None)) by (by intros [? ?]).
  rewrite bool_decide_eq_false_2 by (by intros Hnot; apply Hnot).
  unfold BankAccount_init.
  eexists _, _, _, (fresh (dom h)). split; [done|].
  split; [apply not_elem_of_dom, is_fresh|].
  split; [by rewrite lookup_insert_eq|]. simpl.
  split; [by rewrite lookup_insert_eq|].
  unfold login. simpl.
  rewrite bool_decide_eq_false_2 by apply insert_non_empty.
  rewrite !lookup_insert_eq. simpl.
  by rewrite bool_decide_eq_false_2 by (by intros Hnot; apply Hnot).
Qed.

Lemma sign_up_then_login_witness :
  ∃ self1 h1 out l,
    sign_up (Some "001") (Some "Alice") (Some "PERSONAL") (Some "p1") (Some 1000)
      init ∅ = Some (self1, h1, out) ∧
    (∅ : heap) !! l = None ∧
    h1 !! l = Some (mkBankAccount "001" "Alice" "p1" (capitalize "PERSONAL") 1000 []) ∧
    accounts self1 !! "001" = Some l ∧
    login (Some "001") (Some "p1") self1 h1 =
      Some (mk (accounts self1) (Some l), h1,
            [showinfo "Success" ("Welcome " +:+ "Alice" +:+ "!")]).
Proof.
  apply (sign_up_then_login "001" "Alice" "PERSONAL" "p1" 1000 init ∅);
    [done | reflexivity | done | vm_compute; apply list_elem_of_here | done].
Defined.

(** X8: logging in never changes the registry nor the store, and it changes the
    current account in one case only: the number entered is registered and
    the password entered is the password of its account, which then is the
    current one.  Everything else ends in an error box. *)
Theorem login_needs_the_password a p self h self' h' out :
  login a p self h = Some (self', h', out) →
  h' = h ∧ accounts self' = accounts self ∧
  ((self' = self ∧ ∃ msg, out = [showerror "Error" msg]) ∨
   ∃ n l acc,
     a = Some n ∧ accounts self !! n = Some l ∧ h !! l = Some acc ∧
     p = Some (password acc) ∧ current self' = Some l).
Proof.
  intros Hl.
  apply login_inv in Hl as [(-> & -> & Hout)|(n & l & acc & Hl)].
  - split_and!; [done|done|]. by left.
  - destruct_and!. simplify_eq. split_and!; [done|done|].
    right. by eexists _, _, _.
Qed.

Lemma login_needs_the_password_witness :
  registered_store = registered_store ∧
  accounts registered_app = accounts registered_app ∧
  ((registered_app = registered_app ∧
    ∃ msg, [AuthenticationFailed] = [showerror "Error" msg]) ∨
   ∃ n l acc,
     Some "001" = Some n ∧ accounts registered_app !! n = Some l ∧
     registered_store !! l = Some acc ∧
     Some "guess" = Some (password acc) ∧ current registered_app = Some l).
Proof.
  apply (login_needs_the_password (Some "001") (Some "guess") registered_app
           registered_store).
  vm_compute. reflexivity.
Defined.

End Registry.

(** ** What the running application keeps true *)

Section Invariants.
Import BankingApp Stdlib.Strings.Ascii.

Lemma lower_p (c : Ascii.ascii) :
  lower_char c = "p"%char → upper_char c = "P"%char.
Proof.
  destruct c as [[] [] [] [] [] [] [] []]; vm_compute; intros H;
    (reflexivity || discriminate H).
Qed.

Lemma lower_b (c : Ascii.ascii) :
  lower_char c = "b"%char → upper_char c = "B"%char.
Proof.
  destruct c as [[] [] [] [] [] [] [] []]; vm_compute; intros H;
    (reflexivity || discriminate H).
Qed.

(** Whatever the case of the letters typed, the type that is stored reads
    Personal or Business. *)
Lemma capitalize_valid (ty : string) :
  lower ty ∈ ["personal"; "business"] →
  capitalize ty = "Personal" ∨ capitalize ty = "Business".
Proof.
  intros H. destruct ty as [|c r]; simpl in H.
  { repeat (apply elem_of_cons in H as [?|H]; [done|]).
    by apply elem_of_nil in H. }
  apply elem_of_cons in H as [H|H]; [|apply elem_of_cons in H as [H|H]].
  - injection H as Hc Hr. left. simpl. by rewrite Hr, (lower_p c Hc).
  - injection H as Hc Hr. right. simpl. by rewrite Hr, (lower_b c Hc).
  - by apply elem_of_nil in H.
Qed.

Lemma reachable_types_ok self h :
  reachable self h →
  ∀ n l a, accounts self !! n = Some l → h !! l = Some a →
    acc_type a = "Personal" ∨ acc_type a = "Business".
Proof.
  induction 1 as [|self h qa qn qty qp qb self' h' out Hr IH Hs
                  |self h qa qp self' h' out Hr IH Hs
                  |self h self' h' out Hr IH Hs
                  |self h c h' Hr IH Hc|self h c e h' Hr IH Hc];
    intros n l a Hn Hl.
  - unfold init in Hn. simpl in Hn. by rewrite lookup_empty in Hn.
  - apply sign_up_inv in Hs as [(-> & -> & _)|(n0 & ? & ty' & ? & ? & l0 & Hs)];
      [by eapply IH|]. destruct_and!. simplify_eq. simpl in Hn.
    destruct (decide (n = n0)) as [->|Hne].
    + rewrite lookup_insert_eq in Hn. simplify_eq.
      rewrite lookup_insert_eq in Hl. simplify_eq. simpl.
      by apply capitalize_valid.
    + rewrite lookup_insert_ne in Hn by done.
      destruct (reachable_registry_ok self h Hr n l Hn) as (_ & a0 & Ha0 & _).
      rewrite lookup_insert_ne in Hl by congruence. by eapply IH.
  - apply login_inv in Hs as [(-> & -> & _)|(? & ? & ? & Hs)];
      [by eapply IH|]. destruct_and!. simplify_eq. by eapply IH.
  - unfold logout in Hs. simplify_eq. by eapply IH.
  - destruct (reachable_registry_ok self h Hr n l Hn) as (_ & a0 & Ha0 & _).
    destruct (run_call_frame c h h') with (k := l) (a := a0)
      as (a1 & Ha1 & (_ & _ & _ & Hty) & _); [by rewrite Hc|done|].
    simplify_eq. rewrite Hty. by eapply IH.
  - apply raised_store in Hc as ->. by eapply IH.
Qed.

Lemma reachable_session_ok self h :
  reachable self h →
  ∀ l, current self = Some l → ∃ n, accounts self !! n = Some l.
Proof.
  induction 1 as [|self h qa qn qty qp qb self' h' out Hr IH Hs
                  |self h qa qp self' h' out Hr IH Hs
                  |self h self' h' out Hr IH Hs
                  |self h c h' Hr IH Hc|self h c e h' Hr IH Hc];
    intros l Hcur; try by eapply IH.
  - done.
  - apply sign_up_inv in Hs as [(-> & -> & _)|(n0 & ? & ty' & ? & ? & l0 & Hs)];
      [by eapply IH|]. destruct_and!. simplify_eq. simpl in *.
    destruct (IH l Hcur) as [n Hn]. exists n.
    rewrite lookup_insert_ne; [done|]. congruence.
  - apply login_inv in Hs as [(-> & -> & _)|(n & l' & ? & Hs)];
      [by eapply IH|]. destruct_and!. simplify_eq. simpl in *.
    simplify_eq. by exists n.
  - unfold logout in Hs. by simplify_eq.
Qed.

Lemma alice_signed_up : reachable registered_app registered_store.
Proof. eapply reach_sign_up; [apply reach_init | apply sign_up_alice]. Qed.

Lemma alice_logged_in : reachable logged_in_app registered_store.
Proof.
  eapply (reach_login _ _ (Some "001") (Some "p1")); [apply alice_signed_up|].
  vm_compute. reflexivity.
Qed.

(** X9: in the running application every registered account has the type
    Personal or Business, spelled this way, whatever was typed at sign-up
    and whatever was done with the account since. *)
Theorem account_types_are_valid (self : t) (h : heap) (n : string) (l : loc)
    (a : BankAccount) :
  reachable self h → accounts self !! n = Some l → h !! l = Some a →
  acc_type a = "Personal" ∨ acc_type a = "Business".
Proof. intros Hr. by apply reachable_types_ok. Qed.

Lemma account_types_are_valid_witness :
  acc_type alice = "Personal" ∨ acc_type alice = "Business".
Proof.
  apply (account_types_are_valid logged_in_app registered_store "001" 1 alice).
  - apply alice_logged_in.
  - vm_compute. reflexivity.
  - vm_compute. reflexivity.
Defined.

(** X10: in the running application the current account, when there is one, is
    an object of the store that the registry files under the object's own
    number; and no object is filed under two numbers. *)
Theorem session_is_registered (self : t) (h : heap) :
  reachable self h →
  (∀ l, current self = Some l →
     ∃ a, h !! l = Some a ∧ accounts self !! acc_no a = Some l) ∧
  (∀ n1 n2 l, accounts self !! n1 = Some l → accounts self !! n2 = Some l →
     n1 = n2).
Proof.
  intros Hr. split.
  - intros l Hcur. destruct (reachable_session_ok self h Hr l Hcur) as [n Hn].
    destruct (reachable_registry_ok self h Hr n l Hn) as (_ & a & Ha & <-).
    by exists a.
  - intros n1 n2 l H1 H2.
    destruct (reachable_registry_ok self h Hr n1 l H1) as (_ & a1 & Ha1 & <-).
    destruct (reachable_registry_ok self h Hr n2 l H2) as (_ & a2 & Ha2 & <-).
    congruence.
Qed.

Lemma session_is_registered_witness :
  (∀ l, current logged_in_app = Some l →
     ∃ a, registered_store !! l = Some a ∧
       accounts logged_in_app !! acc_no a = Some l) ∧
  (∀ n1 n2 l, accounts logged_in_app !! n1 = Some l →
     accounts logged_in_app !! n2 = Some l → n1 = n2).
Proof.
  apply (session_is_registered logged_in_app registered_store).
  apply alice_logged_in.
Defined.

End Invariants.

(** ** The buttons of the dashboard, proved *)

Section Clicks.
Import BankingApp.

Lemma try_call_inv self c msg h self' h' out :
  Dashboard.try_call self (run_call c) msg h = Dashboard.Finished self' h' out →
  self' = self ∧
  ((h' = h ∧ ∃ e, run_call c h = Raised e h ∧
      out = [showerror "Error" (exn_message e)]) ∨
   (run_call c h = Returned tt h' ∧ out = [showinfo "Success" msg])).
Proof.
  unfold Dashboard.try_call.
  destruct (run_call c h) as [[] h1|e h1|] eqn:Hc; intros; simplify_eq.
  - split; [done|]. by right.
  - apply raised_store in Hc as Heq. subst. split; [done|]. left. eauto.
Qed.

(** A call that returns has written into a log, so the store it leaves is
    not the store it found. *)
Lemma returned_changes (c : call) (h h' : heap) :
  run_call c h = Returned tt h' → h' ≠ h.
Proof.
  intros Hc Heq. subst h'.
  assert (∀ l a a' s, h !! l = Some a → h = <[l := a']> h →
            transactions a' = (transactions a ++ [s])%list → False) as Habs.
  { intros l a a' s Hl Heq Hlog.
    apply (f_equal (λ m, m !! l)) in Heq.
    rewrite lookup_insert_eq, Hl in Heq. simplify_eq.
    apply (f_equal length) in Hlog. rewrite length_app in Hlog.
    simpl in Hlog. lia. }
  destruct c; simpl in Hc.
  - apply deposit_returned in Hc as (_ & a & Hl & Heq).
    by eapply (Habs self a).
  - apply withdraw_returned in Hc as (_ & a & Hl & _ & Heq).
    by eapply (Habs self a).
  - apply transfer_returned in Hc as (_ & Hne & a & b & Hl & Ht & _ & Heq).
    apply (f_equal (λ m, m !! target)) in Heq.
    rewrite lookup_insert_eq, Ht in Heq. simplify_eq.
    apply (f_equal transactions) in Heq. simpl in Heq.
    apply (f_equal length) in Heq. rewrite length_app in Heq.
    simpl in Heq. lia.
  - apply mobile_topup_returned in Hc as (_ & a & Hl & _ & Heq).
    by eapply (Habs self a).
Qed.

Lemma click_inv e self h self' h' out :
  is_click e = true →
  step e self h = Dashboard.Finished self' h' out →
  self' = self ∧
  ((h' = h ∧ (out = [] ∨ ∃ msg, out = [showerror "Error" msg])) ∨
   ∃ c msg, current self = Some (caller c) ∧
     run_call c h = Returned tt h' ∧ out = [showinfo "Success" msg]).
Proof.
  intros Hclick Hstep. destruct e; try done; simpl in Hstep;
    unfold Dashboard.deposit, Dashboard.withdraw, Dashboard.transfer,
      Dashboard.mobile_topup, Dashboard.try_current in Hstep;
    repeat case_match; simplify_eq;
    try (split; [done|]; left; split; [done|]; by eauto).
  all: match goal with
       | H : Dashboard.try_call _ (deposit ?l ?x) _ _ = _ |- _ =>
         apply (try_call_inv _ (Deposit l x)) in H
       | H : Dashboard.try_call _ (withdraw ?l ?x) _ _ = _ |- _ =>
         apply (try_call_inv _ (Withdraw l x)) in H
       | H : Dashboard.try_call _ (transfer ?l ?x ?t) _ _ = _ |- _ =>
         apply (try_call_inv _ (Transfer l x t)) in H
       | H : Dashboard.try_call _ (mobile_topup ?l ?x ?n) _ _ = _ |- _ =>
         apply (try_call_inv _ (MobileTopup l x n)) in H
       end.
  all: match goal with
       | H : _ ∧ (_ ∨ _) |- _ =>
         destruct H as (-> & [(-> & e & _ & ->)|(Hret & ->)])
       end.
  all: split; [done|].
  all: first [ left; split; [done|]; by eauto
             | match goal with
               | Hret : run_call ?c _ = Returned _ _ |- _ =>
                 right; exists c; eexists; by split_and!
               end ].
Qed.

(** X11: a click on Deposit, Withdraw, Fund Transfer or Mobile Top-Up never
    changes the registry or the current account, and with the ledger it is
    all or nothing: either the store is left exactly as it was, with no box
    or one error box, or one method call of the current account returned,
    the store is another one, and the one box shown says Success. *)
Theorem click_is_all_or_nothing (e : event) (self : t) (h : heap) (self' : t)
    (h' : heap) (out : list messagebox) :
  is_click e = true →
  step e self h = Dashboard.Finished self' h' out →
  self' = self ∧
  ((h' = h ∧ (out = [] ∨ ∃ msg, out = [showerror "Error" msg])) ∨
   (h' ≠ h ∧ ∃ c msg, current self = Some (caller c) ∧
      run_call c h = Returned tt h' ∧ out = [showinfo "Success" msg])).
Proof.
  intros Hclick Hstep.
  destruct (click_inv e self h self' h' out Hclick Hstep)
    as (-> & [Hsame|(c & msg & Hcur & Hret & ->)]).
  - split; [done|]. by left.
  - split; [done|]. right. split; [by eapply returned_changes|].
    by exists c, msg.
Qed.

Lemma click_is_all_or_nothing_witness :
  logged_in_app = logged_in_app ∧
  ((registered_store = registered_store ∧
    ([showerror "Error" "Not enough balance"] = [] ∨
     ∃ msg, [showerror "Error" "Not enough balance"] = [showerror "Error" msg])) ∨
   (registered_store ≠ registered_store ∧
    ∃ c msg, current logged_in_app = Some (caller c) ∧
      run_call c registered_store = Returned tt registered_store ∧
      [showerror "Error" "Not enough balance"] = [showinfo "Success" msg])).
Proof.
  apply (click_is_all_or_nothing (ClickWithdraw (Some 5000)) logged_in_app
           registered_store).
  - reflexivity.
  - vm_compute. reflexivity.
Defined.

End Clicks.

(** ** A session at the window, proved *)

Section Window.
Import BankingApp.

Ltac not_shown :=
  let Hin := fresh "Hin" in
  intros Hin;
  repeat (apply elem_of_cons in Hin as [Hin|Hin]; [discriminate Hin|]);
  by apply elem_of_nil in Hin.

(** The Fund Transfer button in the running application, with somebody
    logged in: the handler finishes, and what it calls, if anything, is a
    transfer between two different objects. *)
Lemma dashboard_transfer_reachable self h target amt :
  reachable self h → is_Some (current self) →
  ∃ h' out,
    Dashboard.transfer target amt self h = Dashboard.Finished self h' out ∧
    (showerror "Error" "Cannot transfer to same account" ∉ out) ∧
    ((∀ x, amt = Some x → 0 < x) →
     showerror "Error" "Amount must be positive" ∉ out).
Proof.
  intros Hr [l Hcur].
  destruct (reachable_session_ok self h Hr l Hcur) as [n Hn].
  destruct (reachable_registry_ok self h Hr n l Hn) as (_ & a & Ha & <-).
  unfold Dashboard.transfer. case_bool_decide.
  { eexists _, _. split; [done|]. split; [|intros _]; not_shown. }
  destruct target as [[|c r]|];
    try (eexists _, _; split; [done|]; split; [|intros _]; not_shown).
  destruct (accounts self !! String c r) as [t|] eqn:Ht;
    [|eexists _, _; split; [done|]; split; [|intros _]; not_shown].
  rewrite Hcur, Ha. case_bool_decide as Hno.
  { eexists _, _. split; [done|]. split; [|intros _]; not_shown. }
  destruct (reachable_registry_ok self h Hr _ t Ht) as (_ & b & Hb & Hbno).
  assert (t ≠ l) as Hne by (intros ->; congruence).
  destruct amt as [[|p|p]|];
    try (eexists _, _; split; [done|]; split; [|intros _]; not_shown).
  - unfold Dashboard.try_call. rewrite transfer_unfold, Ha, Hb.
    rewrite (bool_decide_eq_false_2 (Z.pos p ≤ 0)) by lia.
    rewrite (bool_decide_eq_false_2 (t = l)) by done.
    case_bool_decide; eexists _, _; (split; [done|]);
      (split; [|intros _]); not_shown.
  - unfold Dashboard.try_call. rewrite transfer_unfold.
    rewrite (bool_decide_eq_true_2 (Z.neg p ≤ 0)) by lia.
    eexists _, _. split; [done|]. split; [not_shown|].
    intros Hpos. specialize (Hpos _ eq_refl). lia.
Qed.

(** X12: in the running application, with somebody logged in, the Fund Transfer
    button never gets to the refusal of a transfer to oneself: the handler
    finishes without touching the registry or the current account, and the
    box "Cannot transfer to same account" is not among those it shows. *)
Theorem gui_transfer_never_to_self (self : t) (h : heap)
    (target : option string) (amt : option Z) :
  reachable self h → is_Some (current self) →
  ∃ h' out,
    Dashboard.transfer target amt self h = Dashboard.Finished self h' out ∧
    showerror "Error" "Cannot transfer to same account" ∉ out.
Proof.
  intros Hr Hcur.
  destruct (dashboard_transfer_reachable self h target amt Hr Hcur)
    as (h' & out & Hrun & Hnot & _).
  by exists h', out.
Qed.

Lemma desk_reachable : reachable desk ledger.
Proof.
  eapply (reach_login _ _ (Some "001") (Some "p1"));
    [eapply (reach_sign_up _ _ (Some "002") (Some "Bob") (Some "business")
               (Some "p2") (Some 500)); [apply alice_signed_up|]|];
    vm_compute; reflexivity.
Qed.

Lemma gui_transfer_never_to_self_witness :
  ∃ h' out,
    Dashboard.transfer (Some "001") (Some 100) desk ledger
      = Dashboard.Finished desk h' out ∧
    showerror "Error" "Cannot transfer to same account" ∉ out.
Proof.
  apply (gui_transfer_never_to_self desk ledger).
  - apply desk_reachable.
  - vm_compute. eexists. reflexivity.
Defined.

(** Whoever is logged in is an object of the store. *)
Lemma current_allocated self h l :
  reachable self h → current self = Some l →
  ∃ a, h !! l = Some a.
Proof.
  intros Hr Hcur. destruct (reachable_session_ok self h Hr l Hcur) as [n Hn].
  destruct (reachable_registry_ok self h Hr n l Hn) as (_ & a & Ha & _).
  by exists a.
Qed.

Lemma step_reachable e self h self' h' out :
  reachable self h →
  step e self h = Dashboard.Finished self' h' out →
  reachable self' h'.
Proof.
  intros Hr Hstep.
  destruct (is_click e) eqn:Hclick.
  { destruct (click_inv e self h self' h' out Hclick Hstep)
      as (-> & [(-> & _)|(c & msg & _ & Hret & _)]); [done|].
    by eapply reach_returned. }
  destruct e; try done; simpl in Hstep; unfold finish in Hstep;
    repeat case_match; simplify_eq.
  - by eapply reach_sign_up.
  - by eapply reach_login.
  - by eapply reach_logout.
Qed.

Lemma step_finishes e self h :
  reachable self h → offered e self = true →
  ∃ self' h' out, step e self h = Dashboard.Finished self' h' out.
Proof.
  intros Hr Hoff. destruct e; simpl in *.
  - unfold sign_up, BankAccount_init, finish.
    repeat case_match; simplify_eq; by eauto.
  - unfold login, finish. repeat case_match; simplify_eq; eauto.
    match goal with
    | H : accounts self !! ?n = Some ?l |- _ =>
      destruct (reachable_registry_ok self h Hr n l H) as (_ & acc & Hacc & _)
    end. congruence.
  - unfold logout, finish. eauto.
  - apply bool_decide_eq_true in Hoff as [l Hcur].
    destruct (current_allocated self h l Hr Hcur) as [a Ha].
    unfold Dashboard.deposit, Dashboard.try_current, Dashboard.try_call.
    rewrite Hcur. destruct amt as [[|p|p]|]; eauto;
      rewrite deposit_unfold, Ha; case_bool_decide; eauto.
  - apply bool_decide_eq_true in Hoff as [l Hcur].
    destruct (current_allocated self h l Hr Hcur) as [a Ha].
    unfold Dashboard.withdraw, Dashboard.try_current, Dashboard.try_call.
    rewrite Hcur. destruct amt as [[|p|p]|]; eauto;
      rewrite withdraw_unfold, Ha; repeat case_bool_decide; eauto.
  - apply bool_decide_eq_true in Hoff.
    destruct (dashboard_transfer_reachable self h target_acc amt Hr Hoff)
      as (h' & out & Hrun & _). eauto.
  - apply bool_decide_eq_true in Hoff as [l Hcur].
    destruct (current_allocated self h l Hr Hcur) as [a Ha].
    unfold Dashboard.mobile_topup, Dashboard.try_current, Dashboard.try_call.
    rewrite Hcur. destruct number as [[|c r]|]; eauto.
    destruct amt as [[|p|p]|]; eauto;
      rewrite mobile_topup_unfold, Ha; repeat case_bool_decide; eauto.
Qed.

(** X13: in the running application no button that is on the screen makes its
    handler fail: it neither reaches for an object that is not there nor
    lets an exception escape, the [self.current.acc_no] that the Fund
    Transfer handler reads outside its [try] included. *)
Theorem offered_button_finishes (e : event) (self : t) (h : heap) :
  reachable self h → offered e self = true →
  ∃ self' h' out,
    step e self h = Dashboard.Finished self' h' out ∧ reachable self' h'.
Proof.
  intros Hr Hoff.
  destruct (step_finishes e self h Hr Hoff) as (self' & h' & out & Hstep).
  exists self', h', out. split; [done|]. by eapply step_reachable.
Qed.

Lemma offered_button_finishes_witness :
  ∃ self' h' out,
    step (ClickTransfer (Some "002") (Some 100)) desk ledger
      = Dashboard.Finished self' h' out ∧ reachable self' h'.
Proof.
  apply (offered_button_finishes (ClickTransfer (Some "002") (Some 100))
           desk ledger).
  - apply desk_reachable.
  - reflexivity.
Defined.

(** A run, event by event. *)
Lemma run_cons e es self h s2 h2 out :
  run (e :: es) self h = Some (s2, h2, out) →
  offered e self = true ∧
  ((∃ s1 h1 o1 o2,
      step e self h = Dashboard.Finished s1 h1 o1 ∧
      run es s1 h1 = Some (s2, h2, o2) ∧ out = (o1 ++ o2)%list) ∨
   (∃ msg, step e self h = Dashboard.Escaped msg ∧
      run es self h = Some (s2, h2, out))).
Proof.
  intros Hrun. cbn [run] in Hrun.
  destruct (offered e self); [|done]. split; [done|].
  destruct (step e self h) as [s1 h1 o1|msg|]; [| |done].
  - left. destruct (run es s1 h1) as [[[s3 h3] o3]|] eqn:Hrest; [|done].
    simplify_eq. by eexists _, _, _, _.
  - right. by exists msg.
Qed.

Lemma run_call_keeps_nonneg (c : call) (h h' : heap) :
  run_call c h = Returned tt h' →
  (∀ l a, h !! l = Some a → 0 ≤ balance a) →
  ∀ l a, h' !! l = Some a → 0 ≤ balance a.
Proof.
  intros Hc Hnn l a' Hl'.
  assert (quoted <$> h' !! l = quoted <$> h !! l) as Hq.
  { apply (run_call_quoted c). by rewrite Hc. }
  rewrite Hl' in Hq. destruct (h !! l) as [a|] eqn:Hl; [|done].
  destruct (run_call_nonneg c h h' Hc l a Hl (Hnn l a Hl)) as (a1 & Hl1 & Hnn1).
  congruence.
Qed.

Lemma step_keeps_nonneg e self h self' h' out :
  askfloat_ok e →
  step e self h = Dashboard.Finished self' h' out →
  (∀ l a, h !! l = Some a → 0 ≤ balance a) →
  ∀ l a, h' !! l = Some a → 0 ≤ balance a.
Proof.
  intros Hok Hstep Hnn.
  destruct (is_click e) eqn:Hclick.
  { destruct (click_inv e self h self' h' out Hclick Hstep)
      as (-> & [(-> & _)|(c & msg & _ & Hret & _)]); [done|].
    by eapply run_call_keeps_nonneg. }
  destruct e; try done; simpl in Hstep; unfold finish in Hstep;
    repeat case_match; simplify_eq.
  - match goal with
    | H : sign_up _ _ _ _ _ _ _ = _ |- _ =>
      apply sign_up_inv in H
        as [(-> & -> & _)|(n0 & ? & ? & ? & b' & l0 & Hs)]; [done|]
    end.
    destruct_and!. simplify_eq. simpl in Hok. intros l a Hl.
    destruct (decide (l = l0)) as [->|Hne].
    + rewrite lookup_insert_eq in Hl. by simplify_eq.
    + rewrite lookup_insert_ne in Hl by done. by eapply Hnn.
  - match goal with
    | H : login _ _ _ _ = _ |- _ =>
      apply login_inv in H as [(-> & -> & _)|(? & ? & ? & Hs)]; [done|]
    end.
    destruct_and!. by simplify_eq.
  - unfold logout in *. by simplify_eq.
Qed.

Lemma run_keeps_nonneg es self h self' h' out :
  run es self h = Some (self', h', out) →
  Forall askfloat_ok es →
  (∀ l a, h !! l = Some a → 0 ≤ balance a) →
  ∀ l a, h' !! l = Some a → 0 ≤ balance a.
Proof.
  revert self h out. induction es as [|e es IH]; intros self h out Hrun Hok Hnn.
  - simpl in Hrun. by simplify_eq.
  - apply Forall_cons in Hok as [Hoke Hok].
    apply run_cons in Hrun
      as (_ & [(s1 & h1 & o1 & o2 & Hstep & Hrest & _)|(msg & _ & Hrest)]).
    + eapply IH; [done|done|]. by eapply step_keeps_nonneg.
    + by eapply IH.
Qed.

(** X14: from the opening of the window on, whatever is clicked and typed, as
    long as the dialogs hold their minimum (no opening balance below zero),
    no account of the store ever has a negative balance. *)
Theorem window_balances_never_negative (es : list event) (self : t) (h : heap)
    (out : list messagebox) (l : loc) (a : BankAccount) :
  run es init ∅ = Some (self, h, out) →
  Forall askfloat_ok es →
  h !! l = Some a → 0 ≤ balance a.
Proof.
  intros Hrun Hok Hl.
  eapply (run_keeps_nonneg es init ∅); [done|done| |done].
  intros l' a'. by rewrite lookup_empty.
Qed.

(** What no box of a well-behaved window says. *)
Lemma step_boxes e self h self' h' out :
  reachable self h → offered e self = true → askfloat_ok e →
  step e self h = Dashboard.Finished self' h' out →
  (showerror "Error" "Amount must be positive" ∉ out) ∧
  (showerror "Error" "Cannot transfer to same account" ∉ out).
Proof.
  intros Hr Hoff Hok Hstep. destruct e; simpl in *.
  - unfold sign_up, finish in Hstep.
    repeat case_match; simplify_eq; split; not_shown.
  - unfold login, finish in Hstep.
    repeat case_match; simplify_eq; split; not_shown.
  - unfold logout, finish in Hstep. simplify_eq. split; not_shown.
  - apply bool_decide_eq_true in Hoff as [l Hcur].
    destruct (current_allocated self h l Hr Hcur) as [a Ha].
    unfold Dashboard.deposit, Dashboard.try_current, Dashboard.try_call in Hstep.
    rewrite Hcur in Hstep.
    destruct amt as [[|p|p]|]; simplify_eq; try (split; not_shown); [|lia].
    rewrite deposit_unfold, Ha, bool_decide_eq_false_2 in Hstep by lia.
    simplify_eq. split; not_shown.
  - apply bool_decide_eq_true in Hoff as [l Hcur].
    destruct (current_allocated self h l Hr Hcur) as [a Ha].
    unfold Dashboard.withdraw, Dashboard.try_current, Dashboard.try_call in Hstep.
    rewrite Hcur in Hstep.
    destruct amt as [[|p|p]|]; simplify_eq; try (split; not_shown); [|lia].
    rewrite withdraw_unfold, Ha, (bool_decide_eq_false_2 (Z.pos p ≤ 0)) in Hstep
      by lia.
    case_bool_decide; simplify_eq; split; not_shown.
  - apply bool_decide_eq_true in Hoff.
    destruct (dashboard_transfer_reachable self h target_acc amt Hr Hoff)
      as (h1 & out1 & Hrun & Hself & Hpos).
    rewrite Hrun in Hstep. simplify_eq. split; [|done].
    apply Hpos. intros x ->. done.
  - apply bool_decide_eq_true in Hoff as [l Hcur].
    destruct (current_allocated self h l Hr Hcur) as [a Ha].
    unfold Dashboard.mobile_topup, Dashboard.try_current, Dashboard.try_call
      in Hstep.
    rewrite Hcur in Hstep.
    destruct number as [[|c r]|]; simplify_eq; try (split; not_shown).
    destruct amt as [[|p|p]|]; simplify_eq; try (split; not_shown); [|lia].
    rewrite mobile_topup_unfold, Ha, (bool_decide_eq_false_2 (Z.pos p ≤ 0))
      in Hstep by lia.
    case_bool_decide; simplify_eq; split; not_shown.
Qed.

Lemma run_boxes es self h self' h' out :
  reachable self h →
  run es self h = Some (self', h', out) →
  Forall askfloat_ok es →
  (showerror "Error" "Amount must be positive" ∉ out) ∧
  (showerror "Error" "Cannot transfer to same account" ∉ out).
Proof.
  revert self h out. induction es as [|e es IH]; intros self h out Hr Hrun Hok.
  - simpl in Hrun. simplify_eq. split; not_shown.
  - apply Forall_cons in Hok as [Hoke Hok].
    apply run_cons in Hrun
      as (Hoff & [(s1 & h1 & o1 & o2 & Hstep & Hrest & ->)|(msg & _ & Hrest)]).
    + destruct (step_boxes e self h s1 h1 o1 Hr Hoff Hoke Hstep) as [H1 H2].
      destruct (IH s1 h1 o2) as [H3 H4];
        [by eapply step_reachable|done|done|].
      split; intros [?|?]%elem_of_app; done.
    + by eapply IH.
Qed.

(** X15: from the opening of the window on, as long as the dialogs hold their
    minimum (no amount below 0.01), no box ever reports an
    [InvalidAmountError]: neither "Amount must be positive" nor "Cannot
    transfer to same account" is shown, the handlers having turned the case
    down before the account is called. *)
Theorem window_never_reports_invalid_amount (es : list event) (self : t)
    (h : heap) (out : list messagebox) :
  run es init ∅ = Some (self, h, out) →
  Forall askfloat_ok es →
  (showerror "Error" "Amount must be positive" ∉ out) ∧
  (showerror "Error" "Cannot transfer to same account" ∉ out).
Proof. intros Hrun Hok. eapply (run_boxes es init ∅); [apply reach_init|done..]. Qed.

Lemma afternoon_runs :
  run afternoon init ∅ = Some (evening.1.1, evening.1.2, evening.2).
Proof. vm_compute. reflexivity. Qed.

Lemma afternoon_askfloat_ok : Forall askfloat_ok afternoon.
Proof.
  unfold afternoon. repeat apply List.Forall_cons; try apply List.Forall_nil;
    simpl; (lia || exact I).
Qed.

Lemma window_balances_never_negative_witness :
  0 ≤ balance (mkBankAccount "002" "Bob" "p2" "Business" 700
                 ["Received Nu.200 from Alice (Acc: 001)"]).
Proof.
  apply (window_balances_never_negative afternoon evening.1.1 evening.1.2
           evening.2 2).
  - apply afternoon_runs.
  - apply afternoon_askfloat_ok.
  - vm_compute. reflexivity.
Defined.

Lemma window_never_reports_invalid_amount_witness :
  (showerror "Error" "Amount must be positive" ∉ evening.2) ∧
  (showerror "Error" "Cannot transfer to same account" ∉ evening.2).
Proof.
  apply (window_never_reports_invalid_amount afternoon evening.1.1 evening.1.2).
  - apply afternoon_runs.
  - apply afternoon_askfloat_ok.
Defined.

End Window.

(** ** Where binary64 rounds *)

Section Rounding.
Import Binary64.
Local Open Scope float_scope.
Set Warnings "-inexact-float".

(** On floats a transfer whose guards let it through returns, and the two
    balances are the rounded difference and the rounded sum. *)
Lemma transfer_on_floats (h : gmap positive account) (A B : positive)
    (a b : account) (x : float) :
  h !! A = Some a → h !! B = Some b → B ≠ A →
  PrimFloat.leb x 0 = false → PrimFloat.ltb (balance a) x = false →
  ∃ h' a' b',
    transfer A x B h = Returned tt h' ∧
    h' !! A = Some a' ∧ h' !! B = Some b' ∧
    balance a' = balance a - x ∧ balance b' = balance b + x.
Proof.
  intros HA HB Hne Hpos Hle. assert (A ≠ B) as Hne' by congruence.
  unfold transfer. rewrite Hpos.
  unfold add_balance, sub_balance, append_transaction, getattr, setattr,
    raise, mbind, M_bind.
  rewrite HA. simpl. rewrite Hle, bool_decide_eq_false_2 by done.
  repeat (simpl;
          first [ rewrite lookup_insert_eq
                | rewrite lookup_insert_ne by done
                | rewrite HA | rewrite HB ]).
  eexists _, _, _. split; [done|].
  rewrite lookup_insert_ne, !lookup_insert_eq by done.
  by split_and!.
Qed.

(** On floats a deposit of an amount that is not [<= 0] returns, and the
    balance is the rounded sum. *)
Lemma deposit_on_floats (h : gmap positive account) (l : positive)
    (a : account) (x : float) :
  h !! l = Some a → PrimFloat.leb x 0 = false →
  ∃ h' a', deposit l x h = Returned tt h' ∧ h' !! l = Some a' ∧
    balance a' = balance a + x.
Proof.
  intros Hl Hpos. unfold deposit. rewrite Hpos.
  unfold add_balance, append_transaction, getattr, setattr, mbind, M_bind.
  repeat (simpl; first [ rewrite lookup_insert_eq | rewrite Hl ]).
  eexists _, _. split; [done|]. by rewrite lookup_insert_eq.
Qed.

(** C9 as stated fails on floats: on a balance of 0.3, the deposits of 0.1
    and of 0.2 both return in either order, and the two orders leave two
    different balances, 0.6000000000000001 and 0.6. *)
Lemma deposits_do_not_commute_on_floats :
  ∃ h1 h2 a1 a2,
    (deposit 1 0.1;; deposit 1 0.2)
      {[1%positive := mk_account "001" "Alice" "p1" "Personal" 0.3 []]}
      = Returned tt h1 ∧
    (deposit 1 0.2;; deposit 1 0.1)
      {[1%positive := mk_account "001" "Alice" "p1" "Personal" 0.3 []]}
      = Returned tt h2 ∧
    h1 !! 1%positive = Some a1 ∧ h2 !! 1%positive = Some a2 ∧
    balance a1 = 0.6000000000000001 ∧ balance a2 = 0.6 ∧
    PrimFloat.eqb (balance a1) (balance a2) = false ∧
    balance a1 ≠ balance a2.
Proof.
  eexists _, _, _, _.
  split; [vm_compute; reflexivity|]. split; [vm_compute; reflexivity|].
  split; [vm_compute; reflexivity|]. split; [vm_compute; reflexivity|].
  split; [vm_compute; reflexivity|]. split; [vm_compute; reflexivity|].
  split; [vm_compute; reflexivity|].
  intros Heq. apply (f_equal (PrimFloat.eqb 0.6)) in Heq.
  vm_compute in Heq. discriminate Heq.
Qed.

(** C1 as stated fails on floats: the transfer of 0.1 from an account with
    0.3 to another with 0.7 returns, but the receiver's balance, 0.7999999999999999,
    is not 0.1 above what it was, and the two balances, which added up to
    1.0, now add up to 0.9999999999999999. *)
Lemma transfer_loses_money_on_floats :
  ∃ h' a' b',
    transfer 1 0.1 2 small_change = Returned tt h' ∧
    h' !! 1%positive = Some a' ∧ h' !! 2%positive = Some b' ∧
    balance a' = 0.19999999999999998 ∧
    balance b' = 0.7999999999999999 ∧
    PrimFloat.eqb (balance b' - 0.7) 0.1 = false ∧
    balance a' + balance b' = 0.9999999999999999 ∧
    0.3 + 0.7 = 1.0 ∧
    PrimFloat.eqb (balance a' + balance b') (0.3 + 0.7) = false.
Proof.
  eexists _, _, _. repeat split; vm_compute; reflexivity.
Qed.

(** On floats a deposit and the withdrawal of the same amount need not give
    the balance back: 0.1, after 0.2 came and went, is 0.10000000000000003. *)
Lemma deposit_then_withdraw_drifts_on_floats :
  ∃ h' a',
    (deposit 1 0.2;; withdraw 1 0.2) a_dime = Returned tt h' ∧
    h' !! 1%positive = Some a' ∧
    balance a' = 0.10000000000000003 ∧
    PrimFloat.eqb (balance a') 0.1 = false.
Proof.
  eexists _, _. repeat split; vm_compute; reflexivity.
Qed.

End Rounding.
